(** * example-uart: the two UART echo tasks and the URC handler of [src/main.c]

    The two tasks talk to their environment through system calls (open,
    read, write, select, close, the termios calls, printf) and loop forever,
    so they are embedded as interaction trees over an event type with one
    constructor per call.  A [world] scripts the answers of the environment
    and [run] executes a tree against it, giving the trace of the calls with
    their answers.  The URC handler is a function from the event code, its
    parameter and the memory the parameter may point into, to the calls of
    [debug] it makes. *)

From Stdlib Require Import ZArith List String Ascii Bool Lia.
From ITree Require Import ITree.
Import ListNotations.
Import ITreeNotations.
Local Open Scope string_scope.
Local Open Scope list_scope.
Local Open Scope Z_scope.
Local Open Scope itree_scope.

(** ** Data *)

(** A [char] object of the task: [None] is the indeterminate value of an
    object that was declared without an initialiser and not yet stored to. *)
Definition cell : Type := option Byte.byte.

(** Arguments handed to the variadic [printf] and [debug]. *)
Inductive arg : Type :=
| ArgStr (s : string)
| ArgInt (z : Z).

(** [struct termios]: the two speeds [cfsetspeed] stores, and the flag words
    the program never looks at. *)
Record termios : Type := Termios {
  c_flags : list Z;
  c_ispeed : Z;
  c_ospeed : Z
}.

Definition cfsetspeed (t : termios) (speed : Z) : termios :=
  {| c_flags := c_flags t; c_ispeed := speed; c_ospeed := speed |}.

(** [fd_set] as the list of the descriptors in it. *)
Definition fd_set : Type := list Z.
Definition FD_ZERO : fd_set := [].
Definition FD_SET (fd : Z) (set : fd_set) : fd_set := fd :: set.

(** [struct timeval]. *)
Record timeval : Type := Timeval { tv_sec : Z; tv_usec : Z }.

(** The constants of the system headers that the tasks pass on. *)
Record platform : Type := Platform {
  SOC_RDA8910 : bool;     (* whether the macro is defined *)
  O_RDWR : Z;
  B9600 : Z;
  TCSANOW : Z
}.

Definition LF : string := String (ascii_of_nat 10) EmptyString.
Definition CR : string := String (ascii_of_nat 13) EmptyString.

(** ** The calls a task makes *)

Variant uartE : Type -> Type :=
| Open (path : string) (flags : Z) : uartE Z
| Tcgetattr (fd : Z) : uartE (Z * termios)
| Tcsetattr (fd : Z) (action : Z) (t : termios) : uartE Z
| Read (fd : Z) (count : Z) : uartE (Z * list Byte.byte)
| Write (fd : Z) (buf : list cell) : uartE Z
| Select (nfds : Z) (readfds : fd_set) (timeout : timeval) : uartE Z
| Close (fd : Z) : uartE Z
| Errno : uartE Z
| Printf (fmt : string) (args : list arg) : uartE unit.

(** [read] stores the bytes it delivers at the start of the buffer. *)
Definition store (data : list Byte.byte) (buf : list cell) : list cell :=
  (map Some data ++ skipn (List.length data) buf)%list.

(** The [count] first cells of a buffer, as [write(fd, buf, count)] sends. *)
Definition take (count : Z) (buf : list cell) : list cell :=
  firstn (Z.to_nat count) buf.

(** [strlen]: the characters before the first NUL. *)
Fixpoint strlen (s : string) : nat :=
  match s with
  | EmptyString => 0%nat
  | String c s' => if Ascii.eqb c zero then 0%nat else S (strlen s')
  end.

Definition chars (s : string) : list cell := map Some (list_byte_of_string s).

Section Tasks.

Variable P : platform.

Definition STDIO_PORT : string :=
  if SOC_RDA8910 P then "/dev/ttyUSB0" else "/dev/ttyS0".
Definition PORT1 : string :=
  if SOC_RDA8910 P then "/dev/ttyS0" else "/dev/ttyS1".
Definition PORT2 : string :=
  if SOC_RDA8910 P then "/dev/ttyS1" else "/dev/ttyS2".

(** One turn of the [while (1)] of [uart1_echo_task]: [inl tt] goes round
    again, [inr tt] is the [break]. *)
Definition uart1_cycle (fd : Z) : itree uartE (unit + unit) :=
  let ch : list cell := [None] in
  '(ret, data) <- ITree.trigger (Read fd 1);;
  let ch := store data ch in
  if ret <? 0 then
    errno <- ITree.trigger Errno;;
    ITree.trigger (Printf ("UART1: fail to read from uart: %d" ++ LF) [ArgInt errno]);;
    Ret (inr tt)
  else
    ITree.trigger (Write fd (take 1 ch));;
    Ret (inl tt).

(** The [while (1)] of [uart1_echo_task]. *)
Definition uart1_loop (fd : Z) : itree uartE unit :=
  ITree.iter (fun _ : unit => uart1_cycle fd) tt.

Definition uart1_echo_task : itree uartE unit :=
  fd <- ITree.trigger (Open PORT1 (O_RDWR P));;
  if fd <? 0 then
    errno <- ITree.trigger Errno;;
    ITree.trigger (Printf ("UART1: Error opening %s, err %d" ++ LF)
                          [ArgStr PORT1; ArgInt errno])
  else
    '(_, t) <- ITree.trigger (Tcgetattr fd);;
    let t := cfsetspeed t (B9600 P) in
    ITree.trigger (Tcsetattr fd (TCSANOW P) t);;
    ITree.trigger (Printf ("UART1: %s open @ 9600" ++ LF) [ArgStr PORT1]);;
    uart1_loop fd;;
    ITree.trigger (Close fd);;
    Ret tt.

Definition idle_notice : string :=
  (CR ++ LF ++ "UART2: No data for 5 sec" ++ CR ++ LF)%string.

(** One turn of the [while (1)] of [uart2_echo_task], with [inl tt] and
    [inr tt] as in [uart1_cycle]. *)
Definition uart2_cycle (fd : Z) : itree uartE (unit + unit) :=
  let rdbuf : list cell := repeat None 128 in
  let timeout := {| tv_sec := 5; tv_usec := 0 |} in
  let set := FD_ZERO in
  let set := FD_SET fd set in
  ret <- ITree.trigger (Select (fd + 1) set timeout);;
  if 0 <? ret then
    '(ret, data) <- ITree.trigger (Read fd (Z.of_nat (List.length rdbuf)));;
    let rdbuf := store data rdbuf in
    if ret <? 0 then
      errno <- ITree.trigger Errno;;
      ITree.trigger (Printf ("UART2: fail to read from uart: %d" ++ LF) [ArgInt errno]);;
      Ret (inr tt)
    else
      ITree.trigger (Write fd (take ret rdbuf));;
      Ret (inl tt)
  else if ret =? -1 then
    errno <- ITree.trigger Errno;;
    ITree.trigger (Printf ("UART2: Select error: %d" ++ LF) [ArgInt errno]);;
    Ret (inr tt)
  else
    ITree.trigger (Write fd (take (Z.of_nat (strlen idle_notice)) (chars idle_notice)));;
    ITree.trigger (Printf idle_notice []);;
    Ret (inl tt).

(** The [while (1)] of [uart2_echo_task]. *)
Definition uart2_loop (fd : Z) : itree uartE unit :=
  ITree.iter (fun _ : unit => uart2_cycle fd) tt.

Definition uart2_echo_task : itree uartE unit :=
  fd <- ITree.trigger (Open PORT2 (O_RDWR P));;
  if fd <? 0 then
    errno <- ITree.trigger Errno;;
    ITree.trigger (Printf ("UART2: Error opening %s, err %d" ++ LF)
                          [ArgStr PORT2; ArgInt errno])
  else
    ITree.trigger (Printf ("UART2: %s open @ 115200" ++ LF) [ArgStr PORT2]);;
    uart2_loop fd.

End Tasks.

(** ** The environment *)

(** What the system answers to the calls of a task.  The reads and the waits
    are scripted one answer per call; a task that calls [read] or [select]
    when its script is used up stays in that call.  A read answers with its
    return value and the bytes it stored in the buffer.  The [k]-th write
    returns [w_write k], with [w_written] the number of writes so far. *)
Record world : Type := World {
  w_open : Z;
  w_errno : Z;
  w_tcgetattr : Z * termios;
  w_tcsetattr : Z;
  w_close : Z;
  w_read : list (Z * list Byte.byte);
  w_select : list Z;
  w_write : nat -> Z;
  w_written : nat
}.

Definition next_read (w : world) : world :=
  {| w_open := w_open w; w_errno := w_errno w; w_tcgetattr := w_tcgetattr w;
     w_tcsetattr := w_tcsetattr w; w_close := w_close w;
     w_read := tl (w_read w); w_select := w_select w;
     w_write := w_write w; w_written := w_written w |}.

Definition next_select (w : world) : world :=
  {| w_open := w_open w; w_errno := w_errno w; w_tcgetattr := w_tcgetattr w;
     w_tcsetattr := w_tcsetattr w; w_close := w_close w;
     w_read := w_read w; w_select := tl (w_select w);
     w_write := w_write w; w_written := w_written w |}.

Definition next_write (w : world) : world :=
  {| w_open := w_open w; w_errno := w_errno w; w_tcgetattr := w_tcgetattr w;
     w_tcsetattr := w_tcsetattr w; w_close := w_close w;
     w_read := w_read w; w_select := w_select w;
     w_write := w_write w; w_written := S (w_written w) |}.

(** The answer to a call and the world after it; [None] when the call does
    not return. *)
Definition answer {T : Type} (e : uartE T) (w : world) : option (T * world) :=
  match e in uartE T return option (T * world) with
  | Open _ _ => Some (w_open w, w)
  | Tcgetattr _ => Some (w_tcgetattr w, w)
  | Tcsetattr _ _ _ => Some (w_tcsetattr w, w)
  | Read _ _ =>
      match w_read w with
      | [] => None
      | r :: _ => Some (r, next_read w)
      end
  | Write _ _ => Some (w_write w (w_written w), next_write w)
  | Select _ _ _ =>
      match w_select w with
      | [] => None
      | r :: _ => Some (r, next_select w)
      end
  | Close _ => Some (w_close w, w)
  | Errno => Some (w_errno w, w)
  | Printf _ _ => Some (tt, w)
  end.

(** A call that returned, with its answer. *)
Inductive event : Type :=
| Event {T : Type} (e : uartE T) (x : T).

(** A call that has not returned. *)
Inductive call : Type :=
| Call {T : Type} (e : uartE T).

(** How a run ends: the task returned, it is suspended in a call, or the run
    was cut short. *)
Inductive outcome (R : Type) : Type :=
| Exited (r : R)
| Blocked (c : call)
| OutOfFuel.
Arguments Exited {R} r.
Arguments Blocked {R} c.
Arguments OutOfFuel {R}.

(** The trace of a task in a world, one unit of [fuel] for each call and
    each turn of a loop. *)
Fixpoint run {R : Type} (fuel : nat) (w : world) (t : itree uartE R)
  : list event * outcome R :=
  match fuel with
  | O => ([], OutOfFuel)
  | S fuel' =>
      match observe t with
      | RetF r => ([], Exited r)
      | TauF t' => run fuel' w t'
      | VisF e k =>
          match answer e w with
          | None => ([], Blocked (Call e))
          | Some (x, w') =>
              let (tr, o) := run fuel' w' (k x) in (Event e x :: tr, o)
          end
      end
  end.

(** ** The URC handler *)

(** The constants of [ril.h] and [lib.h] that [urc_callback] names, as the
    [unsigned int] values its [switch] statements compare with. *)
Record ril : Type := Ril {
  URC_SYS_INIT_STATE_IND : Z;
  URC_SIM_CARD_STATE_IND : Z;
  URC_GSM_NW_STATE_IND : Z;
  URC_GPRS_NW_STATE_IND : Z;
  URC_CFUN_STATE_IND : Z;
  URC_COMING_CALL_IND : Z;
  URC_CALL_STATE_IND : Z;
  URC_NEW_SMS_IND : Z;
  URC_MODULE_VOLTAGE_IND : Z;
  URC_ALARM_RING_IND : Z;
  URC_FILE_DOWNLOAD_STATUS : Z;
  URC_FOTA_STARTED : Z;
  URC_FOTA_FINISHED : Z;
  URC_FOTA_FAILED : Z;
  URC_STKPCI_RSP_IND : Z;
  SYS_STATE_SMSOK : Z;
  SIM_STAT_NOT_INSERTED : Z;
  SIM_STAT_READY : Z;
  SIM_STAT_PIN_REQ : Z;
  SIM_STAT_PUK_REQ : Z;
  SIM_STAT_NOT_READY : Z;
  CALL_STATE_BUSY : Z;
  CALL_STATE_NO_ANSWER : Z;
  CALL_STATE_NO_CARRIER : Z;
  CALL_STATE_NO_DIALTONE : Z;
  DBG_OFF : Z;
  DBG_INFO : Z
}.

(** Modelled from the spec: [struct ril_callinfo_t] is declared in [ril.h],
    which is not part of the sources; the handler reads its [number] field
    only, the caller's number as a C string. *)
Record ril_callinfo_t : Type := Callinfo { number : string }.

(** What the handler can reach through a pointer: the call-info structure
    at an address, if one is there. *)
Definition memory : Type := Z -> option ril_callinfo_t.

(** A call of [debug]. *)
Inductive log : Type :=
| Debug (level : Z) (fmt : string) (args : list arg).

(** A [switch] all of whose cases end in [break]: the body of the first
    label equal to the value, else that of [default]. *)
Fixpoint switch {A : Type} (x : Z) (cases : list (Z * A)) (default : A) : A :=
  match cases with
  | [] => default
  | (label, body) :: cases' => if x =? label then body else switch x cases' default
  end.

Section Handler.

Variable K : ril.

(** [None] is the dereference of a pointer that references no call-info
    structure; otherwise the calls of [debug], in order. *)
Definition urc_callback (mem : memory) (param1 param2 : Z) : option (list log) :=
  switch param1
    [ (URC_SYS_INIT_STATE_IND K,
        if param2 =? SYS_STATE_SMSOK K then Some [] else Some []);
      (URC_SIM_CARD_STATE_IND K,
        switch param2
          [ (SIM_STAT_NOT_INSERTED K,
              Some [Debug (DBG_OFF K) ("SYSTEM: SIM card not inserted!" ++ LF) []]);
            (SIM_STAT_READY K,
              Some [Debug (DBG_INFO K) ("SYSTEM: SIM card Ready!" ++ LF) []]);
            (SIM_STAT_PIN_REQ K,
              Some [Debug (DBG_OFF K) ("SYSTEM: SIM PIN required!" ++ LF) []]);
            (SIM_STAT_PUK_REQ K,
              Some [Debug (DBG_OFF K) ("SYSTEM: SIM PUK required!" ++ LF) []]);
            (SIM_STAT_NOT_READY K,
              Some [Debug (DBG_OFF K) ("SYSTEM: SIM card not recognized!" ++ LF) []]) ]
          (Some [Debug (DBG_OFF K) ("SYSTEM: SIM ERROR: %d" ++ LF) [ArgInt param2]]));
      (URC_GSM_NW_STATE_IND K,
        Some [Debug (DBG_OFF K) ("SYSTEM: GSM NW State: %d" ++ LF) [ArgInt param2]]);
      (URC_GPRS_NW_STATE_IND K, Some []);
      (URC_CFUN_STATE_IND K, Some []);
      (URC_COMING_CALL_IND K,
        match mem param2 with
        | Some callinfo =>
            Some [Debug (DBG_OFF K) ("Incoming voice call from: %s" ++ LF)
                        [ArgStr (number callinfo)]]
        | None => None
        end);
      (URC_CALL_STATE_IND K,
        switch param2
          [ (CALL_STATE_BUSY K,
              Some [Debug (DBG_OFF K) ("The number you dialed is busy now" ++ LF) []]);
            (CALL_STATE_NO_ANSWER K,
              Some [Debug (DBG_OFF K) ("The number you dialed has no answer" ++ LF) []]);
            (CALL_STATE_NO_CARRIER K,
              Some [Debug (DBG_OFF K) ("The number you dialed cannot reach" ++ LF) []]);
            (CALL_STATE_NO_DIALTONE K,
              Some [Debug (DBG_OFF K) ("No Dial tone" ++ LF) []]) ]
          (Some []));
      (URC_NEW_SMS_IND K,
        Some [Debug (DBG_OFF K) ("SMS: New SMS (%d)" ++ LF) [ArgInt param2]]);
      (URC_MODULE_VOLTAGE_IND K,
        Some [Debug (DBG_INFO K) ("VBatt Voltage: %d" ++ LF) [ArgInt param2]]);
      (URC_ALARM_RING_IND K, Some []);
      (URC_FILE_DOWNLOAD_STATUS K, Some []);
      (URC_FOTA_STARTED K, Some []);
      (URC_FOTA_FINISHED K, Some []);
      (URC_FOTA_FAILED K, Some []);
      (URC_STKPCI_RSP_IND K, Some []) ]
    (Some []).

End Handler.


(** ** Reading traces *)

(** The cells a call sends to the endpoint. *)
Definition sent (ev : event) : list cell :=
  match ev with
  | Event (Write _ buf) _ => buf
  | Event _ _ => []
  end.

(** Everything a trace sends, in order. *)
Definition written (tr : list event) : list cell := flat_map sent tr.

Definition is_read (ev : event) : bool :=
  match ev with
  | Event (Read _ _) _ => true
  | Event _ _ => false
  end.

Definition is_close (ev : event) : bool :=
  match ev with
  | Event (Close _) _ => true
  | Event _ _ => false
  end.

(** The local log of the idle notice. *)
Definition logs_notice (ev : event) : bool :=
  match ev with
  | Event (Printf fmt _) _ => String.eqb fmt idle_notice
  | Event _ _ => false
  end.

(** A trace with the answer of every [write] blanked out. *)
Definition blank_write (ev : event) : event :=
  match ev with
  | Event (Write fd buf) _ => Event (Write fd buf) 0
  | ev' => ev'
  end.

Definition blank_writes (res : list event * outcome unit) : list event * outcome unit :=
  (map blank_write (fst res), snd res).

(** A world with other answers to [write]. *)
Definition with_write (answers : nat -> Z) (w : world) : world :=
  {| w_open := w_open w; w_errno := w_errno w; w_tcgetattr := w_tcgetattr w;
     w_tcsetattr := w_tcsetattr w; w_close := w_close w;
     w_read := w_read w; w_select := w_select w;
     w_write := answers; w_written := w_written w |}.

(** The calls of [uart1_echo_task] from [open] up to the loop. *)
Definition uart1_opening (P : platform) (w : world) : list event :=
  [ Event (Open (PORT1 P) (O_RDWR P)) (w_open w);
    Event (Tcgetattr (w_open w)) (w_tcgetattr w);
    Event (Tcsetattr (w_open w) (TCSANOW P) (cfsetspeed (snd (w_tcgetattr w)) (B9600 P)))
          (w_tcsetattr w);
    Event (Printf ("UART1: %s open @ 9600" ++ LF) [ArgStr (PORT1 P)]) tt ].

(** Byte by byte: the read of a byte, then the write of that byte, then the
    next byte.  [answers] and [k] give the answer of each write. *)
Fixpoint echo1_trace (fd : Z) (answers : nat -> Z) (k : nat) (bytes : list Byte.byte)
  : list event :=
  match bytes with
  | [] => []
  | b :: bytes' =>
      Event (Read fd 1) (1, [b]) :: Event (Write fd [Some b]) (answers k)
        :: echo1_trace fd answers (S k) bytes'
  end.

(** The readiness wait of [uart2_cycle]. *)
Definition uart2_wait (fd : Z) : uartE Z :=
  Select (fd + 1) [fd] {| tv_sec := 5; tv_usec := 0 |}.

(** The idle notice byte by byte: CR LF, then "UART2: No data for 5 sec",
    then CR LF; 28 bytes. *)
Definition idle_notice_bytes : list Byte.byte :=
  [ Byte.x0d; Byte.x0a;
    Byte.x55; Byte.x41; Byte.x52; Byte.x54; Byte.x32; Byte.x3a; Byte.x20;
    Byte.x4e; Byte.x6f; Byte.x20;
    Byte.x64; Byte.x61; Byte.x74; Byte.x61; Byte.x20;
    Byte.x66; Byte.x6f; Byte.x72; Byte.x20;
    Byte.x35; Byte.x20;
    Byte.x73; Byte.x65; Byte.x63;
    Byte.x0d; Byte.x0a ].

(** [n] idle turns in a row: the wait that expires, the write of the 28
    bytes of the notice, and the [printf] of the string of the same bytes. *)
Fixpoint idle_trace (fd : Z) (answers : nat -> Z) (k : nat) (n : nat) : list event :=
  match n with
  | O => []
  | S n' =>
      Event (uart2_wait fd) 0
        :: Event (Write fd (map Some idle_notice_bytes)) (answers k)
        :: Event (Printf (string_of_list_byte idle_notice_bytes) []) tt
        :: idle_trace fd answers (S k) n'
  end.

(** The world after [n] idle turns: a wait and a write consumed each time. *)
Fixpoint after_idle (n : nat) (w : world) : world :=
  match n with
  | O => w
  | S n' => after_idle n' (next_write (next_select w))
  end.

(** Pairwise different values. *)
Fixpoint distinct (l : list Z) : bool :=
  match l with
  | [] => true
  | x :: l' => negb (existsb (Z.eqb x) l') && distinct l'
  end.

(** The labels of the outer [switch] of [urc_callback], in its order. *)
Definition urc_codes (K : ril) : list Z :=
  [ URC_SYS_INIT_STATE_IND K; URC_SIM_CARD_STATE_IND K; URC_GSM_NW_STATE_IND K;
    URC_GPRS_NW_STATE_IND K; URC_CFUN_STATE_IND K; URC_COMING_CALL_IND K;
    URC_CALL_STATE_IND K; URC_NEW_SMS_IND K; URC_MODULE_VOLTAGE_IND K;
    URC_ALARM_RING_IND K; URC_FILE_DOWNLOAD_STATUS K; URC_FOTA_STARTED K;
    URC_FOTA_FINISHED K; URC_FOTA_FAILED K; URC_STKPCI_RSP_IND K ].

(** The labels whose case is an empty [break]. *)
Definition reserved_codes (K : ril) : list Z :=
  [ URC_GPRS_NW_STATE_IND K; URC_CFUN_STATE_IND K; URC_ALARM_RING_IND K;
    URC_FILE_DOWNLOAD_STATUS K; URC_FOTA_STARTED K; URC_FOTA_FINISHED K;
    URC_FOTA_FAILED K; URC_STKPCI_RSP_IND K ].

(** The labels of the two inner [switch] statements. *)
Definition sim_states (K : ril) : list Z :=
  [ SIM_STAT_NOT_INSERTED K; SIM_STAT_READY K; SIM_STAT_PIN_REQ K;
    SIM_STAT_PUK_REQ K; SIM_STAT_NOT_READY K ].

Definition call_states (K : ril) : list Z :=
  [ CALL_STATE_BUSY K; CALL_STATE_NO_ANSWER K; CALL_STATE_NO_CARRIER K;
    CALL_STATE_NO_DIALTONE K ].

(** The log lines of the five SIM states, in the order of [sim_states]. *)
Definition sim_lines (K : ril) : list log :=
  [ Debug (DBG_OFF K) ("SYSTEM: SIM card not inserted!" ++ LF) [];
    Debug (DBG_INFO K) ("SYSTEM: SIM card Ready!" ++ LF) [];
    Debug (DBG_OFF K) ("SYSTEM: SIM PIN required!" ++ LF) [];
    Debug (DBG_OFF K) ("SYSTEM: SIM PUK required!" ++ LF) [];
    Debug (DBG_OFF K) ("SYSTEM: SIM card not recognized!" ++ LF) [] ].

(** ** Sample inputs *)

Definition sample_platform : platform :=
  {| SOC_RDA8910 := false; O_RDWR := 2; B9600 := 13; TCSANOW := 0 |}.

Definition sample_ril : ril :=
  {| URC_SYS_INIT_STATE_IND := 0; URC_SIM_CARD_STATE_IND := 1;
     URC_GSM_NW_STATE_IND := 2; URC_GPRS_NW_STATE_IND := 3;
     URC_CFUN_STATE_IND := 4; URC_COMING_CALL_IND := 5;
     URC_CALL_STATE_IND := 6; URC_NEW_SMS_IND := 7;
     URC_MODULE_VOLTAGE_IND := 8; URC_ALARM_RING_IND := 9;
     URC_FILE_DOWNLOAD_STATUS := 10; URC_FOTA_STARTED := 11;
     URC_FOTA_FINISHED := 12; URC_FOTA_FAILED := 13;
     URC_STKPCI_RSP_IND := 14;
     SYS_STATE_SMSOK := 1;
     SIM_STAT_NOT_INSERTED := 0; SIM_STAT_READY := 1; SIM_STAT_PIN_REQ := 2;
     SIM_STAT_PUK_REQ := 3; SIM_STAT_NOT_READY := 4;
     CALL_STATE_BUSY := 0; CALL_STATE_NO_ANSWER := 1;
     CALL_STATE_NO_CARRIER := 2; CALL_STATE_NO_DIALTONE := 3;
     DBG_OFF := 0; DBG_INFO := 3 |}.

(** A memory with one call-info structure, at address 4096. *)
Definition sample_memory : memory :=
  fun address => if address =? 4096 then Some {| number := "5550100" |} else None.

(** A world in which [open] gives descriptor 3, with the given answers to
    the reads and to the waits; every write reports one byte sent. *)
Definition sample_world (reads : list (Z * list Byte.byte)) (waits : list Z) : world :=
  {| w_open := 3; w_errno := 5;
     w_tcgetattr := (0, {| c_flags := []; c_ispeed := 0; c_ospeed := 0 |});
     w_tcsetattr := 0; w_close := 0;
     w_read := reads; w_select := waits;
     w_write := fun _ => 1; w_written := 0 |}.

(** The same with an [open] that fails. *)
Definition closed_world : world :=
  {| w_open := -1; w_errno := 2;
     w_tcgetattr := (0, {| c_flags := []; c_ispeed := 0; c_ospeed := 0 |});
     w_tcsetattr := 0; w_close := 0;
     w_read := []; w_select := [];
     w_write := fun _ => 1; w_written := 0 |}.

(** ** More ways to read a trace *)

(** What follows the first [close] of a trace. *)
Fixpoint after_close (tr : list event) : list event :=
  match tr with
  | [] => []
  | ev :: tr' => if is_close ev then tr' else after_close tr'
  end.

(** The world after [n] echo turns of [uart1_loop]: a read and a write
    consumed each time. *)
Fixpoint after_echo (n : nat) (w : world) : world :=
  match n with
  | O => w
  | S n' => after_echo n' (next_write (next_read w))
  end.

(** The cell [uart1_cycle] sends after a read that stored [data] in [ch]. *)
Definition echoed (data : list Byte.byte) : cell :=
  match data with
  | [] => None
  | b :: _ => Some b
  end.

(** The calls [uart1_echo_task] may make once [open] has returned [fd]: on
    that descriptor only, reads of one byte, writes of one cell, and no
    wait. *)
Definition uart1_call_ok (fd : Z) (ev : event) : bool :=
  match ev with
  | Event (Open _ _) _ => true
  | Event (Tcgetattr fd') _ => fd' =? fd
  | Event (Tcsetattr fd' _ _) _ => fd' =? fd
  | Event (Read fd' count) _ => (fd' =? fd) && (count =? 1)
  | Event (Write fd' buf) _ => (fd' =? fd) && (List.length buf =? 1)%nat
  | Event (Select _ _ _) _ => false
  | Event (Close fd') _ => fd' =? fd
  | Event Errno _ => true
  | Event (Printf _ _) _ => true
  end.

(** A wait that reported the endpoint readable. *)
Definition is_ready (ev : event) : bool :=
  match ev with
  | Event (Select _ _ _) s => 0 <? s
  | Event _ _ => false
  end.

(** The calls of the loop of [uart2_echo_task] on [fd], each looked at with
    the call before it ([ready] tells whether that was a wait that reported
    the endpoint readable): waits of five seconds on [fd] alone, reads of
    at most 128 bytes from [fd] and only right after such a wait, writes to
    [fd]; no [open], no termios call, no [close]. *)
Fixpoint uart2_calls_ok (fd : Z) (ready : bool) (tr : list event) : bool :=
  match tr with
  | [] => true
  | ev :: tr' =>
      match ev with
      | Event (Select nfds fds {| tv_sec := sec; tv_usec := usec |}) _ =>
          (nfds =? fd + 1) && (sec =? 5) && (usec =? 0)
          && match fds with [fd'] => fd' =? fd | _ => false end
      | Event (Read fd' count) _ => ready && (fd' =? fd) && (count =? 128)
      | Event (Write fd' _) _ => fd' =? fd
      | Event Errno _ => true
      | Event (Printf _ _) _ => true
      | Event _ _ => false
      end
      && uart2_calls_ok fd (is_ready ev) tr'
  end.

(** Chunk by chunk: the wait that reports the endpoint readable, the read
    that delivers a chunk, the write of that chunk.  A turn is the answer of
    its wait and the chunk its read delivers. *)
Fixpoint echo2_trace (fd : Z) (answers : nat -> Z) (k : nat)
         (turns : list (Z * list Byte.byte)) : list event :=
  match turns with
  | [] => []
  | (s, data) :: turns' =>
      Event (uart2_wait fd) s
        :: Event (Read fd 128) (Z.of_nat (List.length data), data)
        :: Event (Write fd (map Some data)) (answers k)
        :: echo2_trace fd answers (S k) turns'
  end.

(** The answer of a read that delivers a chunk. *)
Definition delivers (data : list Byte.byte) : Z * list Byte.byte :=
  (Z.of_nat (List.length data), data).

(** What justifies a write of [uart1_cycle]: the call just before it is a
    read that did not fail, and the write sends the one cell of [ch] after
    that read. *)
Definition echoes_read (prev : option event) (buf : list cell) : Prop :=
  match prev with
  | Some (Event e x) =>
      match e in uartE T return T -> Prop with
      | Read _ _ => fun x => 0 <= fst x /\ buf = [echoed (snd x)]
      | _ => fun _ => False
      end x
  | None => False
  end.

(** Every write of a trace is justified by the call before it; [prev] is
    the call before the trace. *)
Fixpoint uart1_writes_echo (prev : option event) (tr : list event) : Prop :=
  match tr with
  | [] => True
  | ev :: tr' =>
      match ev with
      | Event (Write _ buf) _ => echoes_read prev buf
      | Event _ _ => True
      end
      /\ uart1_writes_echo (Some ev) tr'
  end.

(** What justifies a write of [uart2_cycle]: either the call just before it
    is a read that did not fail, and the write sends the cells of [rdbuf]
    that read filled; or it is a wait that returned neither a positive value
    nor -1, and the write sends the idle notice. *)
Definition echoes_or_notice (prev : option event) (buf : list cell) : Prop :=
  match prev with
  | Some (Event e x) =>
      match e in uartE T return T -> Prop with
      | Read _ _ =>
          fun x => 0 <= fst x /\ buf = take (fst x) (store (snd x) (repeat None 128))
      | Select _ _ _ =>
          fun s => s <= 0 /\ s <> -1 /\ buf = chars idle_notice
      | _ => fun _ => False
      end x
  | None => False
  end.

Fixpoint uart2_writes_echo (prev : option event) (tr : list event) : Prop :=
  match tr with
  | [] => True
  | ev :: tr' =>
      match ev with
      | Event (Write _ buf) _ => echoes_or_notice prev buf
      | Event _ _ => True
      end
      /\ uart2_writes_echo (Some ev) tr'
  end.

(** ** More on the URC handler *)

(** Each format [urc_callback] hands to [debug], with the label of the case
    of the outer [switch] it stands in. *)
Definition log_source (K : ril) : list (string * Z) :=
  [ ("SYSTEM: SIM card not inserted!" ++ LF, URC_SIM_CARD_STATE_IND K);
    ("SYSTEM: SIM card Ready!" ++ LF, URC_SIM_CARD_STATE_IND K);
    ("SYSTEM: SIM PIN required!" ++ LF, URC_SIM_CARD_STATE_IND K);
    ("SYSTEM: SIM PUK required!" ++ LF, URC_SIM_CARD_STATE_IND K);
    ("SYSTEM: SIM card not recognized!" ++ LF, URC_SIM_CARD_STATE_IND K);
    ("SYSTEM: SIM ERROR: %d" ++ LF, URC_SIM_CARD_STATE_IND K);
    ("SYSTEM: GSM NW State: %d" ++ LF, URC_GSM_NW_STATE_IND K);
    ("Incoming voice call from: %s" ++ LF, URC_COMING_CALL_IND K);
    ("The number you dialed is busy now" ++ LF, URC_CALL_STATE_IND K);
    ("The number you dialed has no answer" ++ LF, URC_CALL_STATE_IND K);
    ("The number you dialed cannot reach" ++ LF, URC_CALL_STATE_IND K);
    ("No Dial tone" ++ LF, URC_CALL_STATE_IND K);
    ("SMS: New SMS (%d)" ++ LF, URC_NEW_SMS_IND K);
    ("VBatt Voltage: %d" ++ LF, URC_MODULE_VOLTAGE_IND K) ]%string.

(** The log lines of the four call states, in the order of [call_states]. *)
Definition call_lines (K : ril) : list log :=
  [ Debug (DBG_OFF K) ("The number you dialed is busy now" ++ LF) [];
    Debug (DBG_OFF K) ("The number you dialed has no answer" ++ LF) [];
    Debug (DBG_OFF K) ("The number you dialed cannot reach" ++ LF) [];
    Debug (DBG_OFF K) ("No Dial tone" ++ LF) [] ].

(** The format of a call of [debug]. *)
Definition format_of (line : log) : string :=
  match line with Debug _ fmt _ => fmt end.

(** ** The entry point *)

(** The calls of [main] into the library and the scheduler.
    [logicrom_init] is given the console port and the URC handler,
    [os_task_create] the entry function of a task, its argument and a flag;
    both results are dropped by [main]. *)
Variant bootE : Type -> Type :=
| Logicrom_init (stdio_port : string)
                (urc_handler : memory -> Z -> Z -> option (list log)) : bootE Z
| Os_task_create (entry : itree uartE unit) (arg : Z) (flag : Z) : bootE Z
| Sleep (seconds : Z) : bootE Z.

(** [main] calls [printf] as the tasks do. *)
Definition mainE : Type -> Type := uartE +' bootE.

(** The null pointer and the [FALSE] of the library. *)
Definition NULL : Z := 0.
Definition FALSE : Z := 0.

Section Main.

Variable P : platform.
Variable K : ril.

(** One turn of the [while (1)] of [main]: it has no [break]. *)
Definition main_cycle : itree mainE (unit + Z) :=
  ITree.trigger (inr1 (Sleep 1));;
  Ret (inl tt).

(** The [while (1)] of [main]. *)
Definition main_loop : itree mainE Z :=
  ITree.iter (fun _ : unit => main_cycle) tt.

Definition main : itree mainE Z :=
  ITree.trigger (inr1 (Logicrom_init (STDIO_PORT P) (urc_callback K)));;
  ITree.trigger (inl1 (Printf ("System Ready" ++ LF) []));;
  ITree.trigger (inr1 (Os_task_create (uart1_echo_task P) NULL FALSE));;
  ITree.trigger (inr1 (Os_task_create (uart2_echo_task P) NULL FALSE));;
  ITree.trigger (inl1 (Printf ("System Initialization finished" ++ LF) []));;
  main_loop.

End Main.

(** A call of [main] that returned, with its answer; and the call alone. *)
Inductive main_event : Type :=
| MainEvent {T : Type} (e : mainE T) (x : T).

Inductive main_call : Type :=
| MainCall {T : Type} (e : mainE T).

Definition call_of (ev : main_event) : main_call :=
  match ev with MainEvent e _ => MainCall e end.

(** The environment of [main]: the answer to a call, given all that
    happened before it. *)
Definition oracle : Type := forall T : Type, list main_event -> mainE T -> T.

(** The trace of [main] against an environment, from the events [past], one
    unit of [fuel] for each call and each turn of the loop; [None] when the
    fuel runs out before [main] returns. *)
Fixpoint run_main {R : Type} (fuel : nat) (env : oracle) (past : list main_event)
         (t : itree mainE R) : list main_event * option R :=
  match fuel with
  | O => ([], None)
  | S fuel' =>
      match observe t with
      | RetF r => ([], Some r)
      | TauF t' => run_main fuel' env past t'
      | VisF e k =>
          let x := env _ past e in
          let (tr, o) := run_main fuel' env (past ++ [MainEvent e x]) (k x) in
          (MainEvent e x :: tr, o)
      end
  end.

(** The calls [main] makes before its loop. *)
Definition boot_calls (P : platform) (K : ril) : list main_call :=
  [ MainCall (inr1 (Logicrom_init (STDIO_PORT P) (urc_callback K)));
    MainCall (inl1 (Printf ("System Ready" ++ LF) []));
    MainCall (inr1 (Os_task_create (uart1_echo_task P) NULL FALSE));
    MainCall (inr1 (Os_task_create (uart2_echo_task P) NULL FALSE));
    MainCall (inl1 (Printf ("System Initialization finished" ++ LF) [])) ].

(** ** The interpreter *)

Lemma run_more {R : Type} (n m : nat) (w : world) (t : itree uartE R) tr o :
  run n w t = (tr, o) -> o <> OutOfFuel -> run (n + m) w t = (tr, o).
Proof.
  revert w t tr o. induction n as [|n IH]; intros w t tr o H Ho; simpl in *.
  - inversion H; subst. congruence.
  - destruct (observe t) as [r|t'|T e k]; auto.
    destruct (answer e w) as [[x w']|]; auto.
    destruct (run n w' (k x)) as [tr' o'] eqn:E.
    inversion H; subst. rewrite (IH _ _ _ _ E Ho). reflexivity.
Qed.

Lemma run_enough {R : Type} (n fuel : nat) (w : world) (t : itree uartE R) tr o :
  run n w t = (tr, o) -> o <> OutOfFuel -> (n <= fuel)%nat -> run fuel w t = (tr, o).
Proof.
  intros H Ho Hle. replace fuel with (n + (fuel - n))%nat by lia.
  now apply run_more.
Qed.

(** [run] looks at a tree through [observe] only. *)
Lemma run_observe {R : Type} (n : nat) (w : world) (t t' : itree uartE R) :
  observe t = observe t' -> run n w t = run n w t'.
Proof.
  intros H. destruct n; simpl; [reflexivity|]. rewrite H. reflexivity.
Qed.

Lemma run_Ret {R : Type} (n : nat) (w : world) (r : R) :
  run (S n) w (Ret r) = ([], Exited r).
Proof. reflexivity. Qed.

Lemma run_Tau {R : Type} (n : nat) (w : world) (t : itree uartE R) :
  run (S n) w (Tau t) = run n w t.
Proof. reflexivity. Qed.

Lemma run_bind_Ret {R S : Type} (n : nat) (w : world) (x : S) (k : S -> itree uartE R) :
  run n w (ITree.bind (Ret x) k) = run n w (k x).
Proof. apply run_observe. reflexivity. Qed.

Lemma run_bind_Tau {R S : Type} (n : nat) (w : world) (t : itree uartE S)
      (k : S -> itree uartE R) :
  run (Datatypes.S n) w (ITree.bind (Tau t) k) = run n w (ITree.bind t k).
Proof. reflexivity. Qed.

(** A call followed by the rest of the task. *)
Lemma run_call {R T : Type} (n : nat) (w : world) (e : uartE T) (k : T -> itree uartE R) :
  run (S n) w (ITree.bind (ITree.trigger e) k) =
  match answer e w with
  | None => ([], Blocked (Call e))
  | Some (x, w') => let (tr, o) := run n w' (k x) in (Event e x :: tr, o)
  end.
Proof.
  simpl. destruct (answer e w) as [[x w']|]; [|reflexivity].
  rewrite (run_bind_Ret n w' x k). reflexivity.
Qed.

(** A call in tail position. *)
Lemma run_last_call {T : Type} (n : nat) (w : world) (e : uartE T) :
  run (S (S n)) w (ITree.trigger e) =
  match answer e w with
  | None => ([], Blocked (Call e))
  | Some (x, w') => ([Event e x], Exited x)
  end.
Proof. simpl. destruct (answer e w) as [[x w']|]; reflexivity. Qed.

Lemma observe_bind {R S : Type} (t : itree uartE S) (k : S -> itree uartE R) :
  observe (ITree.bind t k) =
  match observe t with
  | RetF r => observe (k r)
  | TauF t' => TauF (ITree.bind t' k)
  | VisF e h => VisF e (fun x => ITree.bind (h x) k)
  end.
Proof.
  change (observe (ITree.bind t k))
    with (observe (match observe t with
                   | RetF r => k r
                   | TauF t' => Tau (ITree.bind t' k)
                   | VisF e h => Vis e (fun x => ITree.bind (h x) k)
                   end)).
  destruct (observe t); reflexivity.
Qed.

Lemma run_bind_bind {R S T : Type} (n : nat) (w : world) (t : itree uartE T)
      (k : T -> itree uartE S) (k' : S -> itree uartE R) :
  run n w (ITree.bind (ITree.bind t k) k') =
  run n w (ITree.bind t (fun x => ITree.bind (k x) k')).
Proof.
  revert w t. induction n as [|n IH]; intros w t; [reflexivity|].
  cbn [run]. rewrite !observe_bind.
  destruct (observe t) as [r|t'|X e h].
  - rewrite observe_bind. reflexivity.
  - apply IH.
  - destruct (answer e w) as [[x w']|]; [|reflexivity].
    rewrite (IH w' (h x)). reflexivity.
Qed.

(** One turn of a loop, then the loop again or its end. *)
Lemma run_iter {R I : Type} (n : nat) (w : world) (body : I -> itree uartE (I + R)) (i : I) :
  run n w (ITree.iter body i) =
  run n w (ITree.bind (body i)
             (fun lr => match lr with
                        | inl l => Tau (ITree.iter body l)
                        | inr r => Ret r
                        end)).
Proof. apply run_observe. reflexivity. Qed.

(** The next call of a task, whatever follows it. *)
Ltac next_call := rewrite ?run_bind_bind, !run_call; cbn [answer].

Lemma run_bind_observe {R S : Type} (n : nat) (w : world) (t t' : itree uartE S)
      (k : S -> itree uartE R) :
  observe t = observe t' -> run n w (ITree.bind t k) = run n w (ITree.bind t' k).
Proof.
  intros H. apply run_observe. rewrite !observe_bind, H. reflexivity.
Qed.

(** The same for a loop that is followed by more of the task. *)
Lemma run_bind_iter {R S I : Type} (n : nat) (w : world)
      (body : I -> itree uartE (I + S)) (i : I) (k : S -> itree uartE R) :
  run n w (ITree.bind (ITree.iter body i) k) =
  run n w (ITree.bind (body i)
             (fun lr => ITree.bind match lr with
                                   | inl l => Tau (ITree.iter body l)
                                   | inr r => Ret r
                                   end k)).
Proof.
  rewrite <- run_bind_bind. apply run_bind_observe. reflexivity.
Qed.

(** ** Opening the endpoint *)

(** C8. When [open] returns a negative handle, either task reads [errno],
    prints one diagnostic carrying the endpoint path and that error code, and
    returns: [open] is called once (no retry) and no read, write, wait or
    close follows. *)
Theorem open_failure_ends_task (P : platform) (w : world) (fuel : nat) :
  w_open w < 0 -> (4 <= fuel)%nat ->
  run fuel w (uart1_echo_task P) =
    ([ Event (Open (PORT1 P) (O_RDWR P)) (w_open w);
       Event Errno (w_errno w);
       Event (Printf ("UART1: Error opening %s, err %d" ++ LF)
                     [ArgStr (PORT1 P); ArgInt (w_errno w)]) tt ],
     Exited tt)
  /\
  run fuel w (uart2_echo_task P) =
    ([ Event (Open (PORT2 P) (O_RDWR P)) (w_open w);
       Event Errno (w_errno w);
       Event (Printf ("UART2: Error opening %s, err %d" ++ LF)
                     [ArgStr (PORT2 P); ArgInt (w_errno w)]) tt ],
     Exited tt).
Proof.
  intros Hfd Hfuel. apply Z.ltb_lt in Hfd.
  split; apply run_enough with (n := 4%nat); try discriminate; trivial.
  - unfold uart1_echo_task. rewrite run_call. cbn [answer]. rewrite Hfd.
    rewrite run_call. cbn [answer]. rewrite run_last_call. reflexivity.
  - unfold uart2_echo_task. rewrite run_call. cbn [answer]. rewrite Hfd.
    rewrite run_call. cbn [answer]. rewrite run_last_call. reflexivity.
Qed.

Lemma open_failure_ends_task_witness :
  w_open closed_world < 0 /\ (4 <= 4)%nat /\
  snd (run 4 closed_world (uart1_echo_task sample_platform)) = Exited tt /\
  snd (run 4 closed_world (uart2_echo_task sample_platform)) = Exited tt.
Proof.
  assert (H : w_open closed_world < 0) by (vm_compute; reflexivity).
  assert (H' : (4 <= 4)%nat) by lia.
  destruct (open_failure_ends_task sample_platform closed_world 4 H H') as [H1 H2].
  split; [exact H|split; [exact H'|]]. rewrite H1, H2. split; reflexivity.
Defined.

(** ** The byte-by-byte echo *)

(** A turn of the loop of [uart1_echo_task] whose read succeeds: the read,
    the write of one cell of [ch], and the loop again. *)
Lemma uart1_turn {R : Type} (fd : Z) (k : unit -> itree uartE R) (w : world)
      (ret : Z) (data : list Byte.byte) (n : nat) :
  hd_error (w_read w) = Some (ret, data) -> 0 <= ret ->
  run (S (S (S n))) w (ITree.bind (uart1_loop fd) k) =
  let (tr, o) := run n (next_write (next_read w)) (ITree.bind (uart1_loop fd) k) in
  (Event (Read fd 1) (ret, data)
     :: Event (Write fd (take 1 (store data [None]))) (w_write w (w_written w))
     :: tr, o).
Proof.
  intros Hread Hret. unfold uart1_loop.
  rewrite run_bind_iter. unfold uart1_cycle. rewrite run_bind_bind, run_call.
  cbn [answer]. destruct (w_read w) as [|r rs]; [discriminate|].
  injection Hread as ->. 
  assert (Hneg : (ret <? 0) = false) by (apply Z.ltb_ge; exact Hret).
  rewrite Hneg. rewrite run_bind_bind, run_call. cbn [answer].
  rewrite run_bind_Ret, run_bind_Tau.
  destruct (run n _ _) as [tr o]. reflexivity.
Qed.

(** The turn whose read fails: the diagnostic, then what follows the loop. *)
Lemma uart1_last_turn {R : Type} (fd : Z) (k : unit -> itree uartE R) (w : world)
      (ret : Z) (data : list Byte.byte) (n : nat) :
  hd_error (w_read w) = Some (ret, data) -> ret < 0 ->
  run (S (S (S n))) w (ITree.bind (uart1_loop fd) k) =
  let (tr, o) := run n (next_read w) (k tt) in
  (Event (Read fd 1) (ret, data)
     :: Event Errno (w_errno w)
     :: Event (Printf ("UART1: fail to read from uart: %d" ++ LF) [ArgInt (w_errno w)]) tt
     :: tr, o).
Proof.
  intros Hread Hret. unfold uart1_loop.
  rewrite run_bind_iter. unfold uart1_cycle. rewrite run_bind_bind, run_call.
  cbn [answer]. destruct (w_read w) as [|r rs]; [discriminate|].
  injection Hread as ->.
  assert (Hneg : (ret <? 0) = true) by (apply Z.ltb_lt; exact Hret).
  rewrite Hneg. rewrite run_bind_bind, run_call. cbn [answer].
  rewrite run_bind_bind, run_call. cbn [answer].
  rewrite run_bind_Ret, run_bind_Ret.
  destruct (run n _ _) as [tr o]. reflexivity.
Qed.

(** The loop is suspended in [read] when no input is left. *)
Lemma uart1_blocked {R : Type} (fd : Z) (k : unit -> itree uartE R) (w : world) (n : nat) :
  w_read w = [] ->
  run (S n) w (ITree.bind (uart1_loop fd) k) = ([], Blocked (Call (Read fd 1))).
Proof.
  intros Hread. unfold uart1_loop.
  rewrite run_bind_iter. unfold uart1_cycle. rewrite run_bind_bind, run_call.
  cbn [answer]. rewrite Hread. reflexivity.
Qed.

Lemma uart1_loop_echoes {R : Type} (fd : Z) (k : unit -> itree uartE R)
      (bytes : list Byte.byte) (w : world) (n : nat) :
  w_read w = map (fun b => (1, [b])) bytes ->
  run (3 * List.length bytes + S n) w (ITree.bind (uart1_loop fd) k) =
  (echo1_trace fd (w_write w) (w_written w) bytes, Blocked (Call (Read fd 1))).
Proof.
  revert w. induction bytes as [|b bytes IH]; intros w Hread.
  - apply uart1_blocked. exact Hread.
  - replace (3 * List.length (b :: bytes) + S n)%nat
      with (S (S (S (3 * List.length bytes + S n)))) by (cbn [List.length]; lia).
    rewrite (uart1_turn fd k w 1 [b]); [|rewrite Hread; reflexivity|lia].
    rewrite IH; [reflexivity|].
    cbn. rewrite Hread. reflexivity.
Qed.

Lemma written_echo1_trace (fd : Z) (answers : nat -> Z) (k : nat) (bytes : list Byte.byte) :
  written (echo1_trace fd answers k bytes) = map Some bytes.
Proof.
  revert k. induction bytes as [|b bytes IH]; intros k; [reflexivity|].
  cbn. unfold written in IH. rewrite IH. reflexivity.
Qed.

(** C1. With the endpoint open and the reads delivering the bytes one at a
    time, [uart1_echo_task] reads a byte, writes that byte, and only then
    reads the next one: after the opening calls its trace is
    [echo1_trace], it sends the bytes received and nothing else, and
    it is then suspended in the read of the byte that has not come. *)
Theorem uart1_echoes_each_byte_in_order (P : platform) (w : world)
        (bytes : list Byte.byte) (fuel : nat) :
  0 <= w_open w ->
  w_read w = map (fun b => (1, [b])) bytes ->
  (3 * List.length bytes + 5 <= fuel)%nat ->
  run fuel w (uart1_echo_task P) =
    (uart1_opening P w ++ echo1_trace (w_open w) (w_write w) (w_written w) bytes,
     Blocked (Call (Read (w_open w) 1)))
  /\ written (fst (run fuel w (uart1_echo_task P))) = map Some bytes.
Proof.
  intros Hfd Hread Hfuel.
  assert (Hrun : run fuel w (uart1_echo_task P) =
    (uart1_opening P w ++ echo1_trace (w_open w) (w_write w) (w_written w) bytes,
     Blocked (Call (Read (w_open w) 1)))).
  { apply run_enough with (n := (3 * List.length bytes + 5)%nat);
      [|discriminate|exact Hfuel].
    replace (3 * List.length bytes + 5)%nat
      with (S (S (S (S (3 * List.length bytes + 1))))) by lia.
    unfold uart1_echo_task. rewrite run_call. cbn [answer].
    assert (Hneg : (w_open w <? 0) = false) by (apply Z.ltb_ge; exact Hfd).
    rewrite Hneg. rewrite run_call. cbn [answer].
    destruct (w_tcgetattr w) as [r t] eqn:Htc.
    rewrite run_call. cbn [answer]. rewrite run_call. cbn [answer].
    rewrite (uart1_loop_echoes (w_open w) _ bytes w 0 Hread).
    unfold uart1_opening. rewrite Htc. reflexivity. }
  split; [exact Hrun|].
  rewrite Hrun. cbn [fst]. unfold written. rewrite flat_map_app.
  change (flat_map sent (echo1_trace (w_open w) (w_write w) (w_written w) bytes))
    with (written (echo1_trace (w_open w) (w_write w) (w_written w) bytes)).
  rewrite written_echo1_trace. reflexivity.
Qed.

Lemma uart1_echoes_each_byte_in_order_witness :
  0 <= w_open (sample_world [(1, [Byte.x41]); (1, [Byte.x42]); (1, [Byte.x43])] []) /\
  w_read (sample_world [(1, [Byte.x41]); (1, [Byte.x42]); (1, [Byte.x43])] [])
    = map (fun b => (1, [b])) [Byte.x41; Byte.x42; Byte.x43] /\
  (3 * List.length [Byte.x41; Byte.x42; Byte.x43] + 5 <= 14)%nat /\
  written (fst (run 14 (sample_world [(1, [Byte.x41]); (1, [Byte.x42]); (1, [Byte.x43])] [])
                    (uart1_echo_task sample_platform)))
    = [Some Byte.x41; Some Byte.x42; Some Byte.x43].
Proof.
  assert (H1 : 0 <= w_open (sample_world [(1, [Byte.x41]); (1, [Byte.x42]); (1, [Byte.x43])] []))
    by (vm_compute; discriminate).
  assert (H2 : w_read (sample_world [(1, [Byte.x41]); (1, [Byte.x42]); (1, [Byte.x43])] [])
                 = map (fun b => (1, [b])) [Byte.x41; Byte.x42; Byte.x43])
    by reflexivity.
  assert (H3 : (3 * List.length [Byte.x41; Byte.x42; Byte.x43] + 5 <= 14)%nat)
    by (simpl; lia).
  split; [exact H1|split; [exact H2|split; [exact H3|]]].
  exact (proj2 (uart1_echoes_each_byte_in_order sample_platform _ _ 14 H1 H2 H3)).
Defined.


(** ** The echo with an idle timeout *)

(** What [write(fd, rdbuf, ret)] sends after a read that delivered [ret]
    bytes: those bytes. *)
Lemma take_store (data : list Byte.byte) (buf : list cell) (ret : Z) :
  Z.of_nat (List.length data) = ret -> take ret (store data buf) = map Some data.
Proof.
  intros <-. unfold take, store. rewrite Nat2Z.id.
  rewrite firstn_app, firstn_all2 by (rewrite length_map; lia).
  rewrite length_map, Nat.sub_diag. cbn [firstn]. apply app_nil_r.
Qed.

Lemma chars_idle_notice :
  take (Z.of_nat (strlen idle_notice)) (chars idle_notice) = chars idle_notice.
Proof. reflexivity. Qed.

(** What the timeout branch hands to [write] is the 28 bytes of the notice,
    and what it hands to [printf] is the string of those bytes. *)
Lemma idle_notice_sent :
  take (Z.of_nat (strlen idle_notice)) (chars idle_notice) = map Some idle_notice_bytes.
Proof. reflexivity. Qed.

Lemma idle_notice_logged : idle_notice = string_of_list_byte idle_notice_bytes.
Proof. reflexivity. Qed.

(** The ways through a turn, one by one. *)
Lemma uart2_cycle_ready (fd : Z) (w : world) (s r : Z) (data : list Byte.byte) (n : nat) :
  hd_error (w_select w) = Some s -> 0 < s ->
  hd_error (w_read w) = Some (r, data) -> 0 <= r ->
  run (S (S (S (S n)))) w (uart2_cycle fd) =
    ([ Event (uart2_wait fd) s;
       Event (Read fd 128) (r, data);
       Event (Write fd (take r (store data (repeat None 128)))) (w_write w (w_written w)) ],
     Exited (inl tt)).
Proof.
  intros Hsel Hs Hread Hr. unfold uart2_cycle. rewrite run_call. cbn [answer].
  destruct (w_select w) as [|s' sels]; [discriminate|]. injection Hsel as ->.
  assert (Hpos : (0 <? s) = true) by (apply Z.ltb_lt; exact Hs). rewrite Hpos.
  rewrite run_call. cbn [answer w_read next_select].
  destruct (w_read w) as [|x rs]; [discriminate|]. injection Hread as ->.
  assert (Hneg : (r <? 0) = false) by (apply Z.ltb_ge; exact Hr). rewrite Hneg.
  rewrite run_call. cbn [answer]. rewrite run_Ret. reflexivity.
Qed.

Lemma uart2_cycle_read_error (fd : Z) (w : world) (s r : Z) (data : list Byte.byte) (n : nat) :
  hd_error (w_select w) = Some s -> 0 < s ->
  hd_error (w_read w) = Some (r, data) -> r < 0 ->
  run (S (S (S (S (S n))))) w (uart2_cycle fd) =
    ([ Event (uart2_wait fd) s;
       Event (Read fd 128) (r, data);
       Event Errno (w_errno w);
       Event (Printf ("UART2: fail to read from uart: %d" ++ LF) [ArgInt (w_errno w)]) tt ],
     Exited (inr tt)).
Proof.
  intros Hsel Hs Hread Hr. unfold uart2_cycle. rewrite run_call. cbn [answer].
  destruct (w_select w) as [|s' sels]; [discriminate|]. injection Hsel as ->.
  assert (Hpos : (0 <? s) = true) by (apply Z.ltb_lt; exact Hs). rewrite Hpos.
  rewrite run_call. cbn [answer w_read next_select].
  destruct (w_read w) as [|x rs]; [discriminate|]. injection Hread as ->.
  assert (Hneg : (r <? 0) = true) by (apply Z.ltb_lt; exact Hr). rewrite Hneg.
  rewrite run_call. cbn [answer]. rewrite run_call. cbn [answer].
  rewrite run_Ret. reflexivity.
Qed.



(** C2. In a turn whose wait reports the endpoint readable, the task calls
    [read] once, for at most 128 bytes, and sends back exactly what that
    read delivered (nothing, and the task ends, when the read failed); the
    idle notice is neither sent nor logged. *)
Theorem uart2_ready_cycle_echoes (fd : Z) (w : world) (s r : Z)
        (data : list Byte.byte) (fuel : nat) :
  hd_error (w_select w) = Some s -> 0 < s ->
  hd_error (w_read w) = Some (r, data) ->
  (0 <= r -> Z.of_nat (List.length data) = r) ->
  (5 <= fuel)%nat ->
  run fuel w (uart2_cycle fd) =
    (Event (uart2_wait fd) s :: Event (Read fd 128) (r, data) ::
       (if r <? 0
        then [ Event Errno (w_errno w);
               Event (Printf ("UART2: fail to read from uart: %d" ++ LF)
                             [ArgInt (w_errno w)]) tt ]
        else [ Event (Write fd (map Some data)) (w_write w (w_written w)) ]),
     Exited (if r <? 0 then inr tt else inl tt))
  /\ filter is_read (fst (run fuel w (uart2_cycle fd))) = [Event (Read fd 128) (r, data)]
  /\ written (fst (run fuel w (uart2_cycle fd))) = (if r <? 0 then [] else map Some data)
  /\ existsb logs_notice (fst (run fuel w (uart2_cycle fd))) = false.
Proof.
  intros Hsel Hs Hread Hlen Hfuel.
  assert (Hrun : run fuel w (uart2_cycle fd) =
    (Event (uart2_wait fd) s :: Event (Read fd 128) (r, data) ::
       (if r <? 0
        then [ Event Errno (w_errno w);
               Event (Printf ("UART2: fail to read from uart: %d" ++ LF)
                             [ArgInt (w_errno w)]) tt ]
        else [ Event (Write fd (map Some data)) (w_write w (w_written w)) ]),
     Exited (if r <? 0 then inr tt else inl tt))).
  { destruct (Z.ltb_spec r 0) as [Hr|Hr].
    - apply run_enough with (n := 5%nat); [|discriminate|exact Hfuel].
      apply (uart2_cycle_read_error fd w s r data 0 Hsel Hs Hread Hr).
    - apply run_enough with (n := 4%nat); [|discriminate|lia].
      rewrite (uart2_cycle_ready fd w s r data 0 Hsel Hs Hread Hr).
      rewrite (take_store data _ r (Hlen Hr)). reflexivity. }
  split; [exact Hrun|]. rewrite Hrun. cbn [fst].
  destruct (r <? 0); repeat split; try reflexivity.
  cbn. apply app_nil_r.
Qed.

Lemma uart2_ready_cycle_echoes_witness :
  hd_error (w_select (sample_world [(2, [Byte.x68; Byte.x69])] [1])) = Some 1 /\
  0 < 1 /\
  hd_error (w_read (sample_world [(2, [Byte.x68; Byte.x69])] [1]))
    = Some (2, [Byte.x68; Byte.x69]) /\
  (0 <= 2 -> Z.of_nat (List.length [Byte.x68; Byte.x69]) = 2) /\
  (5 <= 5)%nat /\
  written (fst (run 5 (sample_world [(2, [Byte.x68; Byte.x69])] [1]) (uart2_cycle 3)))
    = [Some Byte.x68; Some Byte.x69].
Proof.
  assert (H1 : hd_error (w_select (sample_world [(2, [Byte.x68; Byte.x69])] [1])) = Some 1)
    by reflexivity.
  assert (H2 : 0 < 1) by lia.
  assert (H3 : hd_error (w_read (sample_world [(2, [Byte.x68; Byte.x69])] [1]))
                 = Some (2, [Byte.x68; Byte.x69])) by reflexivity.
  assert (H4 : 0 <= 2 -> Z.of_nat (List.length [Byte.x68; Byte.x69]) = 2)
    by (intros _; reflexivity).
  assert (H5 : (5 <= 5)%nat) by lia.
  split; [exact H1|split; [exact H2|split; [exact H3|split; [exact H4|split; [exact H5|]]]]].
  exact (proj1 (proj2 (proj2 (uart2_ready_cycle_echoes 3 _ 1 2 _ 5 H1 H2 H3 H4 H5)))).
Defined.

(** A turn of the loop of [uart2_echo_task] that takes the timeout branch. *)
Lemma uart2_turn_idle (fd : Z) (w : world) (s : Z) (n : nat) :
  hd_error (w_select w) = Some s -> s <= 0 -> s <> -1 ->
  run (S (S (S (S n)))) w (uart2_loop fd) =
  let (tr, o) := run n (next_write (next_select w)) (uart2_loop fd) in
  (Event (uart2_wait fd) s
     :: Event (Write fd (chars idle_notice)) (w_write w (w_written w))
     :: Event (Printf idle_notice []) tt
     :: tr, o).
Proof.
  intros Hsel Hs Hs'. unfold uart2_loop. rewrite run_iter.
  unfold uart2_cycle. rewrite run_bind_bind, run_call. cbn [answer].
  destruct (w_select w) as [|s' sels]; [discriminate|]. injection Hsel as ->.
  assert (Hpos : (0 <? s) = false) by (apply Z.ltb_ge; exact Hs). rewrite Hpos.
  assert (Hne : (s =? -1) = false) by (apply Z.eqb_neq; exact Hs'). rewrite Hne.
  rewrite run_bind_bind, run_call. cbn [answer].
  rewrite run_bind_bind, run_call. cbn [answer].
  rewrite run_bind_Ret, run_Tau. rewrite chars_idle_notice.
  destruct (run n _ _) as [tr o]. reflexivity.
Qed.

Lemma uart2_loop_blocked (fd : Z) (w : world) (n : nat) :
  w_select w = [] ->
  run (S n) w (uart2_loop fd) = ([], Blocked (Call (uart2_wait fd))).
Proof.
  intros Hsel. unfold uart2_loop. rewrite run_iter.
  unfold uart2_cycle. rewrite run_bind_bind, run_call. cbn [answer].
  rewrite Hsel. reflexivity.
Qed.

Lemma uart2_loop_idles (fd : Z) (n m : nat) (rest : list Z) (w : world) :
  w_select w = repeat 0 n ++ rest ->
  run (4 * n + m) w (uart2_loop fd) =
  let (tr, o) := run m (after_idle n w) (uart2_loop fd) in
  (idle_trace fd (w_write w) (w_written w) n ++ tr, o).
Proof.
  revert w. induction n as [|n IH]; intros w Hsel.
  - cbn. destruct (run m w (uart2_loop fd)) as [tr o]. reflexivity.
  - replace (4 * S n + m)%nat with (S (S (S (S (4 * n + m))))) by lia.
    rewrite (uart2_turn_idle fd w 0); [|rewrite Hsel; reflexivity|lia|lia].
    rewrite IH by (cbn; rewrite Hsel; reflexivity).
    rewrite <- chars_idle_notice, idle_notice_sent.
    rewrite idle_notice_logged.
    cbn [after_idle idle_trace]. destruct (run m _ _) as [tr o]. reflexivity.
Qed.

Lemma written_idle_trace (fd : Z) (answers : nat -> Z) (k n : nat) :
  written (idle_trace fd answers k n)
    = List.concat (repeat (map Some idle_notice_bytes) n).
Proof.
  revert k. induction n as [|n IH]; intros k; [reflexivity|].
  unfold written in *. cbn [idle_trace flat_map sent repeat List.concat].
  rewrite IH. reflexivity.
Qed.





(** ** Leaving the task *)

Lemma fst_prepend {R : Type} (ev : event) (res : list event * outcome R) :
  fst (let (tr, o) := res in (ev :: tr, o)) = ev :: fst res.
Proof. destruct res; reflexivity. Qed.

Ltac no_close_step :=
  next_call; rewrite fst_prepend; cbn [existsb is_close orb].

(** Nothing in the loop of [uart2_echo_task], nor after it, closes the
    endpoint. *)
Lemma uart2_loop_never_closes (fd : Z) (fuel : nat) (w : world) :
  existsb is_close (fst (run fuel w (uart2_loop fd))) = false.
Proof.
  revert w. induction fuel as [fuel IH] using lt_wf_ind. intros w.
  destruct fuel as [|f]; [reflexivity|].
  unfold uart2_loop. rewrite run_iter. unfold uart2_cycle.
  rewrite run_bind_bind, run_call. cbn [answer].
  destruct (w_select w) as [|s sels]; [reflexivity|].
  rewrite fst_prepend. cbn [existsb is_close orb].
  destruct f as [|f]; [destruct (0 <? s), (s =? -1); reflexivity|].
  destruct (0 <? s).
  - rewrite run_bind_bind, run_call. cbn [answer w_read next_select].
    destruct (w_read w) as [|[r data] rs]; [reflexivity|].
    rewrite fst_prepend. cbn [existsb is_close orb].
    destruct f as [|f]; [destruct (r <? 0); reflexivity|].
    destruct (r <? 0).
    + no_close_step.
      destruct f as [|f]; [reflexivity|].
      no_close_step.
      rewrite run_bind_Ret. destruct f; reflexivity.
    + no_close_step.
      rewrite run_bind_Ret. destruct f as [|f]; [reflexivity|].
      rewrite run_Tau. apply IH. lia.
  - destruct (s =? -1).
    + no_close_step.
      destruct f as [|f]; [reflexivity|].
      no_close_step.
      rewrite run_bind_Ret. destruct f; reflexivity.
    + no_close_step.
      destruct f as [|f]; [reflexivity|].
      no_close_step.
      rewrite run_bind_Ret. destruct f as [|f]; [reflexivity|].
      rewrite run_Tau. apply IH. lia.
Qed.

Lemma prepend_inv {R : Type} (ev : event) (res : list event * outcome R) tr o :
  (let (tr0, o0) := res in (ev :: tr0, o0)) = (tr, o) ->
  exists tr0, res = (tr0, o) /\ tr = ev :: tr0.
Proof.
  destruct res as [tr0 o0]. intros H. injection H as <- <-. now exists tr0.
Qed.

(** The sibling task does release its endpoint: once [open] has succeeded,
    [uart1_echo_task] returns only through the [close] that follows its
    loop. *)
Lemma uart1_loop_exit_closes (fd : Z) (fuel : nat) (w : world) (tr : list event) :
  run fuel w (uart1_loop fd;; ITree.trigger (Close fd);; Ret tt) = (tr, Exited tt) ->
  exists tr', tr = tr' ++ [Event (Close fd) (w_close w)].
Proof.
  revert w tr. induction fuel as [fuel IH] using lt_wf_ind. intros w tr.
  destruct fuel as [|f]; [discriminate|].
  unfold uart1_loop. rewrite run_bind_iter. unfold uart1_cycle.
  rewrite run_bind_bind, run_call. cbn [answer].
  destruct (w_read w) as [|[r data] rs]; [discriminate|].
  intros H. apply prepend_inv in H. destruct H as (tr1 & H & ->).
  destruct f as [|f]; [discriminate|].
  destruct (r <? 0).
  - rewrite run_bind_bind, run_call in H. cbn [answer] in H.
    apply prepend_inv in H. destruct H as (tr2 & H & ->).
    destruct f as [|f]; [discriminate|].
    rewrite run_bind_bind, run_call in H. cbn [answer] in H.
    apply prepend_inv in H. destruct H as (tr3 & H & ->).
    rewrite !run_bind_Ret in H.
    destruct f as [|f]; [discriminate|].
    rewrite run_call in H. cbn [answer] in H.
    apply prepend_inv in H. destruct H as (tr4 & H & ->).
    destruct f as [|f]; [discriminate|].
    rewrite run_Ret in H. injection H as <-.
    exists [Event (Read fd 1) (r, data); Event Errno (w_errno w);
            Event (Printf ("UART1: fail to read from uart: %d" ++ LF)
                          [ArgInt (w_errno w)]) tt].
    reflexivity.
  - rewrite run_bind_bind, run_call in H. cbn [answer] in H.
    apply prepend_inv in H. destruct H as (tr2 & H & ->).
    rewrite run_bind_Ret in H.
    destruct f as [|f]; [discriminate|].
    rewrite run_bind_Tau in H.
    apply IH in H; [|lia]. destruct H as (tr' & ->).
    exists (Event (Read fd 1) (r, data)
              :: Event (Write fd (take 1 (store data [None]))) (w_write w (w_written w))
              :: tr').
    reflexivity.
Qed.

Lemma uart1_exit_closes (P : platform) (fuel : nat) (w : world) (tr : list event) :
  0 <= w_open w ->
  run fuel w (uart1_echo_task P) = (tr, Exited tt) ->
  exists tr', tr = tr' ++ [Event (Close (w_open w)) (w_close w)].
Proof.
  intros Hfd. apply Z.ltb_ge in Hfd.
  destruct fuel as [|f]; [discriminate|].
  unfold uart1_echo_task. rewrite run_call. cbn [answer]. rewrite Hfd.
  intros H. apply prepend_inv in H. destruct H as (tr1 & H & ->).
  destruct f as [|f]; [discriminate|].
  rewrite run_call in H. cbn [answer] in H. destruct (w_tcgetattr w) as [r t].
  apply prepend_inv in H. destruct H as (tr2 & H & ->).
  destruct f as [|f]; [discriminate|].
  rewrite run_call in H. cbn [answer] in H.
  apply prepend_inv in H. destruct H as (tr3 & H & ->).
  destruct f as [|f]; [discriminate|].
  rewrite run_call in H. cbn [answer] in H.
  apply prepend_inv in H. destruct H as (tr4 & H & ->).
  apply uart1_loop_exit_closes in H. destruct H as (tr' & ->).
  eexists (_ :: _ :: _ :: _ :: tr'). reflexivity.
Qed.

(** C5, where the code departs from it.  [uart2_echo_task] never calls
    [close], whatever the environment answers; in particular, when the wait
    fails after a successful [open], the task prints its diagnostic and
    returns with the descriptor still open. *)
Theorem uart2_exit_leaves_endpoint_open :
  (forall (P : platform) (w : world) (fuel : nat),
     existsb is_close (fst (run fuel w (uart2_echo_task P))) = false)
  /\ run 6 (sample_world [] [-1]) (uart2_echo_task sample_platform) =
       ([ Event (Open "/dev/ttyS2" 2) 3;
          Event (Printf ("UART2: %s open @ 115200" ++ LF) [ArgStr "/dev/ttyS2"]) tt;
          Event (uart2_wait 3) (-1);
          Event Errno 5;
          Event (Printf ("UART2: Select error: %d" ++ LF) [ArgInt 5]) tt ],
        Exited tt).
Proof.
  split; [|reflexivity].
  intros P w fuel. destruct fuel as [|f]; [reflexivity|].
  unfold uart2_echo_task. rewrite run_call. cbn [answer].
  rewrite fst_prepend. cbn [existsb is_close orb].
  destruct f as [|f]; [destruct (w_open w <? 0); reflexivity|].
  destruct (w_open w <? 0).
  - rewrite run_call. cbn [answer]. rewrite fst_prepend. cbn [existsb is_close orb].
    destruct f as [|[|f]]; [reflexivity|reflexivity|].
    rewrite run_last_call. reflexivity.
  - rewrite run_call. cbn [answer]. rewrite fst_prepend. cbn [existsb is_close orb].
    apply uart2_loop_never_closes.
Qed.

(** ** The answers of [write] *)

Lemma blank_writes_prepend (ev ev' : event) (res res' : list event * outcome unit) :
  blank_write ev = blank_write ev' ->
  blank_writes res = blank_writes res' ->
  blank_writes (let (tr, o) := res in (ev :: tr, o)) =
  blank_writes (let (tr, o) := res' in (ev' :: tr, o)).
Proof.
  destruct res as [tr o], res' as [tr' o']. unfold blank_writes. cbn.
  intros -> H. injection H as -> ->. reflexivity.
Qed.

Ltac blind_step := next_call; apply blank_writes_prepend; [reflexivity|].

Lemma uart1_loop_write_blind (fd : Z) (answers : nat -> Z) (fuel : nat) (w : world) :
  blank_writes (run fuel (with_write answers w)
                    (uart1_loop fd;; ITree.trigger (Close fd);; Ret tt)) =
  blank_writes (run fuel w (uart1_loop fd;; ITree.trigger (Close fd);; Ret tt)).
Proof.
  revert w. induction fuel as [fuel IH] using lt_wf_ind. intros w.
  destruct fuel as [|f]; [reflexivity|].
  unfold uart1_loop. rewrite !run_bind_iter. unfold uart1_cycle.
  rewrite !run_bind_bind, !run_call. cbn [answer with_write w_read].
  destruct (w_read w) as [|[r data] rs]; [reflexivity|].
  apply blank_writes_prepend; [reflexivity|].
  destruct f as [|f]; [destruct (r <? 0); reflexivity|].
  destruct (r <? 0).
  - blind_step.
    destruct f as [|f]; [reflexivity|].
    blind_step.
    rewrite !run_bind_Ret.
    destruct f as [|f]; [reflexivity|].
    rewrite !run_call. cbn [answer].
    apply blank_writes_prepend; [reflexivity|].
    destruct f; reflexivity.
  - blind_step.
    rewrite !run_bind_Ret.
    destruct f as [|f]; [reflexivity|].
    rewrite !run_bind_Tau.
    apply (IH f ltac:(lia) (next_write (next_read w))).
Qed.

Lemma uart2_loop_write_blind (fd : Z) (answers : nat -> Z) (fuel : nat) (w : world) :
  blank_writes (run fuel (with_write answers w) (uart2_loop fd)) =
  blank_writes (run fuel w (uart2_loop fd)).
Proof.
  revert w. induction fuel as [fuel IH] using lt_wf_ind. intros w.
  destruct fuel as [|f]; [reflexivity|].
  unfold uart2_loop. rewrite !run_iter. unfold uart2_cycle.
  rewrite !run_bind_bind, !run_call. cbn [answer with_write w_select].
  destruct (w_select w) as [|s sels]; [reflexivity|].
  apply blank_writes_prepend; [reflexivity|].
  destruct f as [|f]; [destruct (0 <? s), (s =? -1); reflexivity|].
  destruct (0 <? s).
  - rewrite !run_bind_bind, !run_call. cbn [answer with_write w_read next_select].
    destruct (w_read w) as [|[r data] rs]; [reflexivity|].
    apply blank_writes_prepend; [reflexivity|].
    destruct f as [|f]; [destruct (r <? 0); reflexivity|].
    destruct (r <? 0).
    + blind_step.
      destruct f as [|f]; [reflexivity|].
      blind_step.
      rewrite !run_bind_Ret. destruct f; reflexivity.
    + blind_step.
      rewrite !run_bind_Ret. destruct f as [|f]; [reflexivity|].
      rewrite !run_Tau.
      apply (IH f ltac:(lia) (next_write (next_read (next_select w)))).
  - destruct (s =? -1).
    + blind_step.
      destruct f as [|f]; [reflexivity|].
      blind_step.
      rewrite !run_bind_Ret. destruct f; reflexivity.
    + blind_step.
      destruct f as [|f]; [reflexivity|].
      blind_step.
      rewrite !run_bind_Ret. destruct f as [|f]; [reflexivity|].
      rewrite !run_Tau.
      apply (IH f ltac:(lia) (next_write (next_select w))).
Qed.

(** C9. No task looks at what a [write] returns.  Run against any answers to
    its writes, a task makes the same calls with the same arguments, gets the
    same answers to its other calls, and ends (or is suspended) in the same
    way: the runs differ in the recorded answers of the writes only. *)
Theorem write_result_never_examined (P : platform) (w : world)
        (answers : nat -> Z) (fuel : nat) :
  blank_writes (run fuel (with_write answers w) (uart1_echo_task P)) =
    blank_writes (run fuel w (uart1_echo_task P))
  /\ blank_writes (run fuel (with_write answers w) (uart2_echo_task P)) =
    blank_writes (run fuel w (uart2_echo_task P)).
Proof.
  split.
  - destruct fuel as [|f]; [reflexivity|].
    unfold uart1_echo_task. rewrite !run_call. cbn [answer with_write w_open].
    apply blank_writes_prepend; [reflexivity|].
    destruct f as [|f]; [destruct (w_open w <? 0); reflexivity|].
    destruct (w_open w <? 0).
    + blind_step.
      destruct f as [|[|f]]; [reflexivity|reflexivity|].
      rewrite !run_last_call. reflexivity.
    + rewrite !run_call. cbn [answer with_write w_tcgetattr].
      destruct (w_tcgetattr w) as [r t].
      apply blank_writes_prepend; [reflexivity|].
      destruct f as [|f]; [reflexivity|].
      blind_step.
      destruct f as [|f]; [reflexivity|].
      blind_step.
      apply uart1_loop_write_blind.
  - destruct fuel as [|f]; [reflexivity|].
    unfold uart2_echo_task. rewrite !run_call. cbn [answer with_write w_open].
    apply blank_writes_prepend; [reflexivity|].
    destruct f as [|f]; [destruct (w_open w <? 0); reflexivity|].
    destruct (w_open w <? 0).
    + blind_step.
      destruct f as [|[|f]]; [reflexivity|reflexivity|].
      rewrite !run_last_call. reflexivity.
    + blind_step.
      apply uart2_loop_write_blind.
Qed.

(** ** The URC handler *)

Lemma distinct_head (x : Z) (l : list Z) :
  distinct (x :: l) = true -> ~ In x l /\ distinct l = true.
Proof.
  cbn [distinct]. intros H. apply andb_prop in H. destruct H as [H1 H2].
  split; [|exact H2]. intros Hin.
  apply negb_true_iff in H1.
  assert (H : existsb (Z.eqb x) l = true).
  { apply existsb_exists. exists x. split; [exact Hin|apply Z.eqb_refl]. }
  congruence.
Qed.

(** What holds of every body and of [default] holds of the [switch]. *)
Lemma switch_all {A : Type} (Q : A -> Prop) (x : Z) (cases : list (Z * A)) (default : A) :
  Forall (fun c => Q (snd c)) cases -> Q default -> Q (switch x cases default).
Proof.
  intros Hcases Hd. induction Hcases as [|[l b] cases Hb _ IH]; [exact Hd|].
  cbn [switch]. destruct (x =? l); [exact Hb|exact IH].
Qed.

(** With pairwise different labels, a [switch] runs the body of the label
    that equals the value. *)
Lemma switch_hit {A : Type} (x : Z) (body : A) (cases : list (Z * A)) (default : A) :
  distinct (map fst cases) = true -> In (x, body) cases ->
  switch x cases default = body.
Proof.
  induction cases as [|[l b] cases IH]; intros Hd Hin; [contradiction|].
  cbn [map fst] in Hd. apply distinct_head in Hd. destruct Hd as [Hl Hd].
  cbn [switch]. destruct Hin as [Heq|Hin].
  - injection Heq as -> ->. rewrite Z.eqb_refl. reflexivity.
  - destruct (Z.eqb_spec x l) as [->|Hne].
    + exfalso. apply Hl. apply (in_map fst) in Hin. exact Hin.
    + apply IH; assumption.
Qed.

(** A value that is no label runs [default]. *)
Lemma switch_miss {A : Type} (x : Z) (cases : list (Z * A)) (default : A) :
  ~ In x (map fst cases) -> switch x cases default = default.
Proof.
  induction cases as [|[l b] cases IH]; intros Hin; [reflexivity|].
  cbn [switch]. destruct (Z.eqb_spec x l) as [->|Hne].
  - exfalso. apply Hin. left. reflexivity.
  - apply IH. intros H. apply Hin. right. exact H.
Qed.

Section HandlerFacts.

Variable K : ril.
Hypothesis urc_codes_distinct : distinct (urc_codes K) = true.

(** The case of one code of the outer [switch]. *)
Ltac urc_case :=
  unfold urc_callback;
  erewrite switch_hit;
    [
    |exact urc_codes_distinct
    |solve [cbn [In]; repeat (try (left; reflexivity); right)]];
  reflexivity.

Lemma urc_sys_init (mem : memory) (param2 : Z) :
  urc_callback K mem (URC_SYS_INIT_STATE_IND K) param2 = Some [].
Proof.
  unfold urc_callback. cbn [switch]. rewrite Z.eqb_refl.
  destruct (param2 =? SYS_STATE_SMSOK K); reflexivity.
Qed.

Lemma urc_reserved (mem : memory) (param1 param2 : Z) :
  In param1 (reserved_codes K) -> urc_callback K mem param1 param2 = Some [].
Proof.
  intros Hin. cbn [reserved_codes In] in Hin.
  repeat (destruct Hin as [<-|Hin]; [urc_case|]). contradiction.
Qed.

Lemma urc_unknown (mem : memory) (param1 param2 : Z) :
  ~ In param1 (urc_codes K) -> urc_callback K mem param1 param2 = Some [].
Proof. intros Hin. unfold urc_callback. apply switch_miss. exact Hin. Qed.

Lemma urc_sim_card (mem : memory) (param2 : Z) :
  urc_callback K mem (URC_SIM_CARD_STATE_IND K) param2 =
  switch param2
    (combine (sim_states K) (map (fun l => Some [l]) (sim_lines K)))
    (Some [Debug (DBG_OFF K) ("SYSTEM: SIM ERROR: %d" ++ LF) [ArgInt param2]]).
Proof. urc_case. Qed.

Lemma urc_call_state (mem : memory) (param2 : Z) :
  urc_callback K mem (URC_CALL_STATE_IND K) param2 =
  switch param2
    [ (CALL_STATE_BUSY K,
        Some [Debug (DBG_OFF K) ("The number you dialed is busy now" ++ LF) []]);
      (CALL_STATE_NO_ANSWER K,
        Some [Debug (DBG_OFF K) ("The number you dialed has no answer" ++ LF) []]);
      (CALL_STATE_NO_CARRIER K,
        Some [Debug (DBG_OFF K) ("The number you dialed cannot reach" ++ LF) []]);
      (CALL_STATE_NO_DIALTONE K,
        Some [Debug (DBG_OFF K) ("No Dial tone" ++ LF) []]) ]
    (Some []).
Proof. urc_case. Qed.

Lemma urc_coming_call (mem : memory) (param2 : Z) :
  urc_callback K mem (URC_COMING_CALL_IND K) param2 =
  match mem param2 with
  | Some callinfo =>
      Some [Debug (DBG_OFF K) ("Incoming voice call from: %s" ++ LF)
                  [ArgStr (number callinfo)]]
  | None => None
  end.
Proof. urc_case. Qed.

(** C6. An event code that is no label of the [switch], a code whose case is
    an empty [break] (GPRS, CFUN, alarm, file download, the three FOTA
    codes, SIM toolkit; the system-init case has an empty body too), and a
    call-state event whose parameter is none of the four states: for each
    the handler calls [debug] not once and returns. *)
Theorem urc_unhandled_is_noop (mem : memory) (param1 param2 : Z) :
  ~ In param1 (urc_codes K)
  \/ In param1 (reserved_codes K)
  \/ param1 = URC_SYS_INIT_STATE_IND K
  \/ (param1 = URC_CALL_STATE_IND K /\ ~ In param2 (call_states K)) ->
  urc_callback K mem param1 param2 = Some [].
Proof.
  intros [H|[H|[->|[-> H]]]].
  - apply urc_unknown. exact H.
  - apply urc_reserved. exact H.
  - apply urc_sys_init.
  - rewrite urc_call_state. apply switch_miss. exact H.
Qed.

(** C7. For the SIM-status event the five states give, in order, the five
    lines of [sim_lines], which are pairwise different; every other
    parameter gives the SIM-error line, a sixth format with the parameter
    itself as its argument; so every parameter gives exactly one line. *)
Theorem sim_status_lines (mem : memory) (param2 : Z) :
  distinct (sim_states K) = true ->
  map (urc_callback K mem (URC_SIM_CARD_STATE_IND K)) (sim_states K)
    = map (fun line => Some [line]) (sim_lines K)
  /\ NoDup (sim_lines K)
  /\ (~ In param2 (sim_states K) ->
      urc_callback K mem (URC_SIM_CARD_STATE_IND K) param2
        = Some [Debug (DBG_OFF K) ("SYSTEM: SIM ERROR: %d" ++ LF) [ArgInt param2]]
      /\ ~ In (Debug (DBG_OFF K) ("SYSTEM: SIM ERROR: %d" ++ LF) [ArgInt param2])
              (sim_lines K))
  /\ (exists line, urc_callback K mem (URC_SIM_CARD_STATE_IND K) param2 = Some [line]).
Proof.
  intros Hsim.
  assert (Hstates :
    map (urc_callback K mem (URC_SIM_CARD_STATE_IND K)) (sim_states K)
      = map (fun line => Some [line]) (sim_lines K)).
  { cbn [map sim_states sim_lines]. rewrite !urc_sim_card.
    repeat (apply (f_equal2 cons);
            [apply switch_hit;
               [exact Hsim|cbn [In combine map sim_states sim_lines]; auto 10]|]).
    reflexivity. }
  assert (Hother : ~ In param2 (sim_states K) ->
    urc_callback K mem (URC_SIM_CARD_STATE_IND K) param2
      = Some [Debug (DBG_OFF K) ("SYSTEM: SIM ERROR: %d" ++ LF) [ArgInt param2]]).
  { intros Hin. rewrite urc_sim_card. apply switch_miss. exact Hin. }
  split; [exact Hstates|]. split; [|split].
  - unfold sim_lines. repeat constructor; cbn [In]; intuition discriminate.
  - intros Hin. split; [exact (Hother Hin)|].
    unfold sim_lines. cbn [In]. intuition discriminate.
  - destruct (in_dec Z.eq_dec param2 (sim_states K)) as [Hin|Hin].
    + rewrite urc_sim_card.
      apply (switch_all (fun r => exists line, r = Some [line])).
      * cbn [combine map sim_states sim_lines].
        repeat constructor; cbn [snd]; eexists; reflexivity.
      * eexists. reflexivity.
    + eexists. exact (Hother Hin).
Qed.

(** C10. The handler reads memory through its parameter for the
    incoming-call event only.  There the parameter is taken as the address
    of a call-info structure whose [number] is logged, and the call is
    defined only if such a structure is at that address.  For every other
    event code the handler returns, with the same calls of [debug],
    whatever the memory holds: the parameter is used as a number. *)
Theorem urc_callback_dereference (mem : memory) (param1 param2 : Z) :
  (param1 = URC_COMING_CALL_IND K ->
     urc_callback K mem param1 param2 =
       match mem param2 with
       | Some callinfo =>
           Some [Debug (DBG_OFF K) ("Incoming voice call from: %s" ++ LF)
                       [ArgStr (number callinfo)]]
       | None => None
       end)
  /\ (param1 <> URC_COMING_CALL_IND K ->
      exists logs, forall mem' : memory, urc_callback K mem' param1 param2 = Some logs).
Proof.
  split.
  - intros ->. apply urc_coming_call.
  - intros Hne. destruct (in_dec Z.eq_dec param1 (urc_codes K)) as [Hin|Hin].
    + cbn [urc_codes In] in Hin.
      repeat (destruct Hin as [<-|Hin];
              [first
                 [ congruence
                 | eexists; intros mem'; urc_case
                 | exists []; intros mem'; apply urc_sys_init
                 | idtac ]
              |]); [| |contradiction].
      * destruct (switch_all (fun r => exists logs, r = Some logs) param2
                    (combine (sim_states K) (map (fun l => Some [l]) (sim_lines K)))
                    (Some [Debug (DBG_OFF K) ("SYSTEM: SIM ERROR: %d" ++ LF)
                                 [ArgInt param2]])) as [logs Hlogs].
        { cbn [combine map sim_states sim_lines].
          repeat constructor; cbn [snd]; eexists; reflexivity. }
        { eexists. reflexivity. }
        exists logs. intros mem'. rewrite urc_sim_card. exact Hlogs.
      * pose proof (urc_call_state mem param2) as Hcs.
        destruct (switch_all (fun r => exists logs, r = Some logs) param2
                    [ (CALL_STATE_BUSY K,
                        Some [Debug (DBG_OFF K) ("The number you dialed is busy now" ++ LF) []]);
                      (CALL_STATE_NO_ANSWER K,
                        Some [Debug (DBG_OFF K) ("The number you dialed has no answer" ++ LF) []]);
                      (CALL_STATE_NO_CARRIER K,
                        Some [Debug (DBG_OFF K) ("The number you dialed cannot reach" ++ LF) []]);
                      (CALL_STATE_NO_DIALTONE K,
                        Some [Debug (DBG_OFF K) ("No Dial tone" ++ LF) []]) ]
                    (Some [])) as [logs Hlogs].
        { repeat constructor; cbn [snd]; eexists; reflexivity. }
        { eexists. reflexivity. }
        exists logs. intros mem'. rewrite urc_call_state. exact Hlogs.
    + exists []. intros mem'. apply urc_unknown. exact Hin.
Qed.

End HandlerFacts.

Lemma urc_unhandled_is_noop_witness :
  distinct (urc_codes sample_ril) = true /\
  (~ In 99 (urc_codes sample_ril)
   \/ In 99 (reserved_codes sample_ril)
   \/ 99 = URC_SYS_INIT_STATE_IND sample_ril
   \/ (99 = URC_CALL_STATE_IND sample_ril /\ ~ In 0 (call_states sample_ril))) /\
  urc_callback sample_ril sample_memory 99 0 = Some [].
Proof.
  assert (H1 : distinct (urc_codes sample_ril) = true) by reflexivity.
  assert (H2 : ~ In 99 (urc_codes sample_ril)
               \/ In 99 (reserved_codes sample_ril)
               \/ 99 = URC_SYS_INIT_STATE_IND sample_ril
               \/ (99 = URC_CALL_STATE_IND sample_ril /\ ~ In 0 (call_states sample_ril))).
  { left. simpl. intuition lia. }
  split; [exact H1|split; [exact H2|]].
  exact (urc_unhandled_is_noop sample_ril H1 sample_memory 99 0 H2).
Defined.

Lemma sim_status_lines_witness :
  distinct (urc_codes sample_ril) = true /\
  distinct (sim_states sample_ril) = true /\
  exists line,
    urc_callback sample_ril sample_memory (URC_SIM_CARD_STATE_IND sample_ril) 9
      = Some [line].
Proof.
  assert (H1 : distinct (urc_codes sample_ril) = true) by reflexivity.
  assert (H2 : distinct (sim_states sample_ril) = true) by reflexivity.
  split; [exact H1|split; [exact H2|]].
  exact (proj2 (proj2 (proj2 (sim_status_lines sample_ril H1 sample_memory 9 H2)))).
Defined.

Lemma urc_callback_dereference_witness :
  distinct (urc_codes sample_ril) = true /\
  URC_COMING_CALL_IND sample_ril = URC_COMING_CALL_IND sample_ril /\
  urc_callback sample_ril sample_memory (URC_COMING_CALL_IND sample_ril) 4096 =
    match sample_memory 4096 with
    | Some callinfo =>
        Some [Debug (DBG_OFF sample_ril) ("Incoming voice call from: %s" ++ LF)
                    [ArgStr (number callinfo)]]
    | None => None
    end.
Proof.
  assert (H1 : distinct (urc_codes sample_ril) = true) by reflexivity.
  split; [exact H1|split; [reflexivity|]].
  exact (proj1 (urc_callback_dereference sample_ril H1 sample_memory
                  (URC_COMING_CALL_IND sample_ril) 4096) eq_refl).
Defined.

(** ** More on the byte-by-byte echo *)

(** X1. Once [open] has succeeded, [uart1_echo_task] returns for one reason
    only: a read returned a negative value.  The run then ends with that
    read, the diagnostic with [errno], and the [close] of the descriptor. *)
Theorem uart1_exits_only_on_read_failure (P : platform) (fuel : nat) (w : world)
        (tr : list event) :
  0 <= w_open w ->
  run fuel w (uart1_echo_task P) = (tr, Exited tt) ->
  exists tr' r data,
    r < 0 /\
    tr = tr' ++ [ Event (Read (w_open w) 1) (r, data);
                  Event Errno (w_errno w);
                  Event (Printf ("UART1: fail to read from uart: %d" ++ LF)
                                [ArgInt (w_errno w)]) tt;
                  Event (Close (w_open w)) (w_close w) ].
Proof.
  intros Hfd. apply Z.ltb_ge in Hfd.
  assert (Hloop : forall fd f w0 tr0,
    run f w0 (uart1_loop fd;; ITree.trigger (Close fd);; Ret tt) = (tr0, Exited tt) ->
    exists tr' r data,
      r < 0 /\
      tr0 = tr' ++ [ Event (Read fd 1) (r, data);
                     Event Errno (w_errno w0);
                     Event (Printf ("UART1: fail to read from uart: %d" ++ LF)
                                   [ArgInt (w_errno w0)]) tt;
                     Event (Close fd) (w_close w0) ]).
  { intros fd f. induction f as [f IH] using lt_wf_ind. intros w0 tr0.
    destruct f as [|f]; [discriminate|].
    unfold uart1_loop. rewrite run_bind_iter. unfold uart1_cycle.
    next_call. destruct (w_read w0) as [|[r data] rs]; [discriminate|].
    intros H. apply prepend_inv in H. destruct H as (tr1 & H & ->).
    destruct f as [|f]; [discriminate|].
    destruct (Z.ltb_spec r 0) as [Hr|Hr].
    - exists [], r, data. split; [exact Hr|].
      rewrite run_bind_bind, run_call in H. cbn [answer] in H.
      apply prepend_inv in H. destruct H as (tr2 & H & ->).
      destruct f as [|f]; [discriminate|].
      rewrite run_bind_bind, run_call in H. cbn [answer] in H.
      apply prepend_inv in H. destruct H as (tr3 & H & ->).
      rewrite !run_bind_Ret in H.
      destruct f as [|f]; [discriminate|].
      rewrite run_call in H. cbn [answer] in H.
      apply prepend_inv in H. destruct H as (tr4 & H & ->).
      destruct f as [|f]; [discriminate|].
      rewrite run_Ret in H. injection H as <-. reflexivity.
    - rewrite run_bind_bind, run_call in H. cbn [answer] in H.
      apply prepend_inv in H. destruct H as (tr2 & H & ->).
      rewrite run_bind_Ret in H.
      destruct f as [|f]; [discriminate|].
      rewrite run_bind_Tau in H.
      apply IH in H; [|lia]. destruct H as (tr' & r' & data' & Hr' & ->).
      exists (Event (Read fd 1) (r, data)
                :: Event (Write fd (take 1 (store data [None]))) (w_write w0 (w_written w0))
                :: tr'), r', data'.
      split; [exact Hr'|reflexivity]. }
  destruct fuel as [|f]; [discriminate|].
  unfold uart1_echo_task. rewrite run_call. cbn [answer]. rewrite Hfd.
  intros H. apply prepend_inv in H. destruct H as (tr1 & H & ->).
  destruct f as [|f]; [discriminate|].
  rewrite run_call in H. cbn [answer] in H. destruct (w_tcgetattr w) as [r t].
  apply prepend_inv in H. destruct H as (tr2 & H & ->).
  destruct f as [|f]; [discriminate|].
  rewrite run_call in H. cbn [answer] in H.
  apply prepend_inv in H. destruct H as (tr3 & H & ->).
  destruct f as [|f]; [discriminate|].
  rewrite run_call in H. cbn [answer] in H.
  apply prepend_inv in H. destruct H as (tr4 & H & ->).
  apply Hloop in H. destruct H as (tr' & r' & data' & Hr' & ->).
  exists (Event (Open (PORT1 P) (O_RDWR P)) (w_open w)
            :: Event (Tcgetattr (w_open w)) (r, t)
            :: Event (Tcsetattr (w_open w) (TCSANOW P) (cfsetspeed t (B9600 P)))
                     (w_tcsetattr w)
            :: Event (Printf ("UART1: %s open @ 9600" ++ LF) [ArgStr (PORT1 P)]) tt
            :: tr'), r', data'.
  split; [exact Hr'|reflexivity].
Qed.

Lemma uart1_exits_only_on_read_failure_witness :
  0 <= w_open (sample_world [(1, [Byte.x41]); (-1, [])] []) /\
  run 12 (sample_world [(1, [Byte.x41]); (-1, [])] []) (uart1_echo_task sample_platform)
    = (uart1_opening sample_platform (sample_world [(1, [Byte.x41]); (-1, [])] [])
         ++ [ Event (Read 3 1) (1, [Byte.x41]); Event (Write 3 [Some Byte.x41]) 1;
              Event (Read 3 1) (-1, []); Event Errno 5;
              Event (Printf ("UART1: fail to read from uart: %d" ++ LF) [ArgInt 5]) tt;
              Event (Close 3) 0 ],
       Exited tt) /\
  exists tr' r data,
    r < 0 /\
    uart1_opening sample_platform (sample_world [(1, [Byte.x41]); (-1, [])] [])
      ++ [ Event (Read 3 1) (1, [Byte.x41]); Event (Write 3 [Some Byte.x41]) 1;
           Event (Read 3 1) (-1, []); Event Errno 5;
           Event (Printf ("UART1: fail to read from uart: %d" ++ LF) [ArgInt 5]) tt;
           Event (Close 3) 0 ]
    = tr' ++ [ Event (Read 3 1) (r, data); Event Errno 5;
               Event (Printf ("UART1: fail to read from uart: %d" ++ LF) [ArgInt 5]) tt;
               Event (Close 3) 0 ].
Proof.
  assert (H1 : 0 <= w_open (sample_world [(1, [Byte.x41]); (-1, [])] []))
    by (vm_compute; discriminate).
  assert (H2 : run 12 (sample_world [(1, [Byte.x41]); (-1, [])] [])
                   (uart1_echo_task sample_platform)
    = (uart1_opening sample_platform (sample_world [(1, [Byte.x41]); (-1, [])] [])
         ++ [ Event (Read 3 1) (1, [Byte.x41]); Event (Write 3 [Some Byte.x41]) 1;
              Event (Read 3 1) (-1, []); Event Errno 5;
              Event (Printf ("UART1: fail to read from uart: %d" ++ LF) [ArgInt 5]) tt;
              Event (Close 3) 0 ],
       Exited tt)) by reflexivity.
  split; [exact H1|split; [exact H2|]].
  exact (uart1_exits_only_on_read_failure sample_platform 12 _ _ H1 H2).
Defined.

Lemma after_close_prepend {R : Type} (ev : event) (res : list event * outcome R) :
  is_close ev = false ->
  after_close (fst (let (tr, o) := res in (ev :: tr, o))) = after_close (fst res).
Proof. intros H. rewrite fst_prepend. cbn [after_close]. rewrite H. reflexivity. Qed.

Ltac not_closed_step := next_call; rewrite after_close_prepend by reflexivity.

(** X2. [uart1_echo_task] makes no call after its [close]: the descriptor is
    closed at most once and never used again, in every run. *)
Theorem uart1_nothing_after_close (P : platform) (fuel : nat) (w : world) :
  after_close (fst (run fuel w (uart1_echo_task P))) = [].
Proof.
  assert (Hloop : forall fd f w0,
    after_close (fst (run f w0 (uart1_loop fd;; ITree.trigger (Close fd);; Ret tt))) = []).
  { intros fd f. induction f as [f IH] using lt_wf_ind. intros w0.
    destruct f as [|f]; [reflexivity|].
    unfold uart1_loop. rewrite run_bind_iter. unfold uart1_cycle.
    next_call. destruct (w_read w0) as [|[r data] rs]; [reflexivity|].
    rewrite after_close_prepend by reflexivity.
    destruct f as [|f]; [destruct (r <? 0); reflexivity|].
    destruct (r <? 0).
    - not_closed_step. destruct f as [|f]; [reflexivity|].
      not_closed_step. rewrite !run_bind_Ret.
      destruct f as [|f]; [reflexivity|].
      next_call. rewrite fst_prepend. cbn [after_close is_close].
      destruct f; reflexivity.
    - not_closed_step. rewrite run_bind_Ret.
      destruct f as [|f]; [reflexivity|].
      rewrite run_bind_Tau. apply IH. lia. }
  destruct fuel as [|f]; [reflexivity|].
  unfold uart1_echo_task. not_closed_step.
  destruct f as [|f]; [destruct (w_open w <? 0); reflexivity|].
  destruct (w_open w <? 0).
  - not_closed_step. destruct f as [|[|f]]; [reflexivity|reflexivity|].
    rewrite run_last_call. reflexivity.
  - next_call. destruct (w_tcgetattr w) as [r t].
    rewrite after_close_prepend by reflexivity.
    destruct f as [|f]; [reflexivity|]. not_closed_step.
    destruct f as [|f]; [reflexivity|]. not_closed_step.
    apply Hloop.
Qed.

Lemma after_echo_reads (bytes : list Byte.byte) (rest : list (Z * list Byte.byte)) (w : world) :
  w_read w = map (fun b => (1, [b])) bytes ++ rest ->
  w_read (after_echo (List.length bytes) w) = rest
  /\ w_errno (after_echo (List.length bytes) w) = w_errno w
  /\ w_close (after_echo (List.length bytes) w) = w_close w.
Proof.
  revert w. induction bytes as [|b bytes IH]; intros w Hread.
  - repeat split. exact Hread.
  - cbn [List.length after_echo].
    destruct (IH (next_write (next_read w))) as (H1 & H2 & H3).
    + cbn. rewrite Hread. reflexivity.
    + repeat split; assumption.
Qed.

(** The echo turns of the loop, whatever the reads give afterwards. *)
Lemma uart1_loop_echoes_on {R : Type} (fd : Z) (k : unit -> itree uartE R)
      (bytes : list Byte.byte) (rest : list (Z * list Byte.byte)) (w : world) (n : nat) :
  w_read w = map (fun b => (1, [b])) bytes ++ rest ->
  run (3 * List.length bytes + n) w (ITree.bind (uart1_loop fd) k) =
  let (tr, o) := run n (after_echo (List.length bytes) w) (ITree.bind (uart1_loop fd) k) in
  (echo1_trace fd (w_write w) (w_written w) bytes ++ tr, o).
Proof.
  revert w. induction bytes as [|b bytes IH]; intros w Hread.
  - cbn. destruct (run n w _) as [tr o]. reflexivity.
  - replace (3 * List.length (b :: bytes) + n)%nat
      with (S (S (S (3 * List.length bytes + n)))) by (cbn [List.length]; lia).
    rewrite (uart1_turn fd k w 1 [b]); [|rewrite Hread; reflexivity|lia].
    rewrite IH by (cbn; rewrite Hread; reflexivity).
    cbn [List.length after_echo]. destruct (run n _ _) as [tr o]. reflexivity.
Qed.

(** X3. The whole life of the task: with the endpoint open, the bytes that
    arrive one at a time are echoed in order, and at the first read that
    fails the task prints the diagnostic with [errno], closes the descriptor
    and returns; what the environment would have answered afterwards is
    never asked for. *)
Theorem uart1_echoes_until_read_fails (P : platform) (w : world) (bytes : list Byte.byte)
        (r : Z) (data : list Byte.byte) (rest : list (Z * list Byte.byte)) (fuel : nat) :
  0 <= w_open w ->
  w_read w = map (fun b => (1, [b])) bytes ++ (r, data) :: rest ->
  r < 0 ->
  (3 * List.length bytes + 9 <= fuel)%nat ->
  run fuel w (uart1_echo_task P) =
    (uart1_opening P w
       ++ echo1_trace (w_open w) (w_write w) (w_written w) bytes
       ++ [ Event (Read (w_open w) 1) (r, data);
            Event Errno (w_errno w);
            Event (Printf ("UART1: fail to read from uart: %d" ++ LF)
                          [ArgInt (w_errno w)]) tt;
            Event (Close (w_open w)) (w_close w) ],
     Exited tt).
Proof.
  intros Hfd Hread Hr Hfuel.
  apply run_enough with (n := (3 * List.length bytes + 9)%nat);
    [|discriminate|exact Hfuel].
  replace (3 * List.length bytes + 9)%nat
    with (S (S (S (S (3 * List.length bytes + 5))))) by lia.
  unfold uart1_echo_task. next_call.
  assert (Hneg : (w_open w <? 0) = false) by (apply Z.ltb_ge; exact Hfd).
  rewrite Hneg. next_call. destruct (w_tcgetattr w) as [r0 t] eqn:Htc.
  next_call. next_call.
  rewrite (uart1_loop_echoes_on (w_open w) _ bytes _ w 5 Hread).
  destruct (after_echo_reads bytes _ w Hread) as (Hrest & Herrno & Hclose).
  rewrite (uart1_last_turn (w_open w) _ _ r data 2);
    [|rewrite Hrest; reflexivity|exact Hr].
  next_call. rewrite run_Ret. cbn [next_read w_close w_errno].
  unfold uart1_opening. rewrite Htc, Herrno, Hclose. reflexivity.
Qed.

Lemma uart1_echoes_until_read_fails_witness :
  0 <= w_open (sample_world [(1, [Byte.x41]); (-1, []); (1, [Byte.x42])] []) /\
  w_read (sample_world [(1, [Byte.x41]); (-1, []); (1, [Byte.x42])] [])
    = map (fun b => (1, [b])) [Byte.x41] ++ (-1, []) :: [(1, [Byte.x42])] /\
  -1 < 0 /\
  (3 * List.length [Byte.x41] + 9 <= 12)%nat /\
  snd (run 12 (sample_world [(1, [Byte.x41]); (-1, []); (1, [Byte.x42])] [])
           (uart1_echo_task sample_platform)) = Exited tt.
Proof.
  assert (H1 : 0 <= w_open (sample_world [(1, [Byte.x41]); (-1, []); (1, [Byte.x42])] []))
    by (vm_compute; discriminate).
  assert (H2 : w_read (sample_world [(1, [Byte.x41]); (-1, []); (1, [Byte.x42])] [])
                 = map (fun b => (1, [b])) [Byte.x41] ++ (-1, []) :: [(1, [Byte.x42])])
    by reflexivity.
  assert (H3 : -1 < 0) by lia.
  assert (H4 : (3 * List.length [Byte.x41] + 9 <= 12)%nat) by (simpl; lia).
  split; [exact H1|split; [exact H2|split; [exact H3|split; [exact H4|]]]].
  rewrite (uart1_echoes_until_read_fails sample_platform _ _ _ _ _ 12 H1 H2 H3 H4).
  reflexivity.
Defined.

Lemma take_store_ch (data : list Byte.byte) :
  take 1 (store data [None]) = [echoed data].
Proof. destruct data as [|b data]; reflexivity. Qed.

(** X4. After a read that did not fail, the turn writes exactly one cell
    whatever the read returned: the first byte the read stored, or, when it
    stored nothing (a return value of 0), the indeterminate value [ch] was
    declared with.  The loop then goes round again. *)
Theorem uart1_turn_sends_one_cell (fd : Z) (w : world) (ret : Z)
        (data : list Byte.byte) (fuel : nat) :
  hd_error (w_read w) = Some (ret, data) -> 0 <= ret -> (3 <= fuel)%nat ->
  run fuel w (uart1_cycle fd) =
    ([ Event (Read fd 1) (ret, data);
       Event (Write fd [echoed data]) (w_write w (w_written w)) ],
     Exited (inl tt)).
Proof.
  intros Hread Hret Hfuel.
  apply run_enough with (n := 3%nat); [|discriminate|exact Hfuel].
  unfold uart1_cycle. next_call.
  destruct (w_read w) as [|x rs]; [discriminate|]. injection Hread as ->.
  assert (Hneg : (ret <? 0) = false) by (apply Z.ltb_ge; exact Hret).
  rewrite Hneg. next_call. rewrite run_Ret, take_store_ch. reflexivity.
Qed.

Lemma uart1_turn_sends_one_cell_witness :
  hd_error (w_read (sample_world [(0, [])] [])) = Some (0, []) /\ 0 <= 0 /\ (3 <= 3)%nat /\
  run 3 (sample_world [(0, [])] []) (uart1_cycle 3) =
    ([Event (Read 3 1) (0, []); Event (Write 3 [None]) 1], Exited (inl tt)).
Proof.
  assert (H1 : hd_error (w_read (sample_world [(0, [])] [])) = Some (0, [])) by reflexivity.
  assert (H2 : 0 <= 0) by lia.
  assert (H3 : (3 <= 3)%nat) by lia.
  split; [exact H1|split; [exact H2|split; [exact H3|]]].
  exact (uart1_turn_sends_one_cell 3 _ 0 [] 3 H1 H2 H3).
Defined.

Lemma forallb_prepend {R : Type} (ok : event -> bool) (ev : event)
      (res : list event * outcome R) :
  ok ev = true ->
  forallb ok (fst (let (tr, o) := res in (ev :: tr, o))) = forallb ok (fst res).
Proof. intros H. rewrite fst_prepend. cbn [forallb]. rewrite H. reflexivity. Qed.

(** X5. Every call [uart1_echo_task] makes after [open] is on the
    descriptor [open] returned; it reads one byte at a time, writes one cell
    at a time, and never waits with [select]: in every run, whatever the
    environment answers. *)
Theorem uart1_calls_stay_on_descriptor (P : platform) (fuel : nat) (w : world) :
  forallb (uart1_call_ok (w_open w)) (fst (run fuel w (uart1_echo_task P))) = true.
Proof.
  assert (Hloop : forall fd f w0,
    forallb (uart1_call_ok fd)
      (fst (run f w0 (uart1_loop fd;; ITree.trigger (Close fd);; Ret tt))) = true).
  { intros fd f. induction f as [f IH] using lt_wf_ind. intros w0.
    destruct f as [|f]; [reflexivity|].
    unfold uart1_loop. rewrite run_bind_iter. unfold uart1_cycle.
    next_call. destruct (w_read w0) as [|[r data] rs]; [reflexivity|].
    rewrite forallb_prepend by (cbn; rewrite Z.eqb_refl; reflexivity).
    destruct f as [|f]; [destruct (r <? 0); reflexivity|].
    destruct (r <? 0).
    - next_call. rewrite forallb_prepend by reflexivity.
      destruct f as [|f]; [reflexivity|].
      next_call. rewrite forallb_prepend by reflexivity.
      rewrite !run_bind_Ret. destruct f as [|f]; [reflexivity|].
      next_call. rewrite forallb_prepend by (cbn; apply Z.eqb_refl).
      destruct f; reflexivity.
    - next_call. rewrite take_store_ch.
      rewrite forallb_prepend by (cbn; rewrite Z.eqb_refl; reflexivity).
      rewrite run_bind_Ret. destruct f as [|f]; [reflexivity|].
      rewrite run_bind_Tau. apply IH. lia. }
  destruct fuel as [|f]; [reflexivity|].
  unfold uart1_echo_task. next_call. rewrite forallb_prepend by reflexivity.
  destruct f as [|f]; [destruct (w_open w <? 0); reflexivity|].
  destruct (w_open w <? 0).
  - next_call. rewrite forallb_prepend by reflexivity.
    destruct f as [|[|f]]; [reflexivity|reflexivity|].
    rewrite run_last_call. reflexivity.
  - next_call. destruct (w_tcgetattr w) as [r t].
    rewrite forallb_prepend by (cbn; apply Z.eqb_refl).
    destruct f as [|f]; [reflexivity|].
    next_call. rewrite forallb_prepend by (cbn; apply Z.eqb_refl).
    destruct f as [|f]; [reflexivity|].
    next_call. rewrite forallb_prepend by reflexivity.
    apply Hloop.
Qed.

(** ** More on the echo with an idle timeout *)

(** A turn of the loop of [uart2_echo_task] that reads and echoes. *)
Lemma uart2_turn_ready (fd : Z) (w : world) (s r : Z) (data : list Byte.byte) (n : nat) :
  hd_error (w_select w) = Some s -> 0 < s ->
  hd_error (w_read w) = Some (r, data) -> 0 <= r ->
  run (S (S (S (S n)))) w (uart2_loop fd) =
  let (tr, o) := run n (next_write (next_read (next_select w))) (uart2_loop fd) in
  (Event (uart2_wait fd) s
     :: Event (Read fd 128) (r, data)
     :: Event (Write fd (take r (store data (repeat None 128)))) (w_write w (w_written w))
     :: tr, o).
Proof.
  intros Hsel Hs Hread Hr. unfold uart2_loop. rewrite run_iter.
  unfold uart2_cycle. next_call.
  destruct (w_select w) as [|s' sels]; [discriminate|]. injection Hsel as ->.
  assert (Hpos : (0 <? s) = true) by (apply Z.ltb_lt; exact Hs). rewrite Hpos.
  next_call. cbn [w_read next_select].
  destruct (w_read w) as [|x rs]; [discriminate|]. injection Hread as ->.
  assert (Hneg : (r <? 0) = false) by (apply Z.ltb_ge; exact Hr). rewrite Hneg.
  next_call. rewrite run_bind_Ret, run_Tau.
  destruct (run n _ _) as [tr o]. reflexivity.
Qed.

(** The turn whose wait fails ends the loop. *)
Lemma uart2_turn_select_error (fd : Z) (w : world) (n : nat) :
  hd_error (w_select w) = Some (-1) ->
  run (S (S (S (S n)))) w (uart2_loop fd) =
    ([ Event (uart2_wait fd) (-1);
       Event Errno (w_errno w);
       Event (Printf ("UART2: Select error: %d" ++ LF) [ArgInt (w_errno w)]) tt ],
     Exited tt).
Proof.
  intros Hsel. unfold uart2_loop. rewrite run_iter.
  unfold uart2_cycle. next_call.
  destruct (w_select w) as [|s' sels]; [discriminate|]. injection Hsel as ->.
  cbn [Z.ltb Z.eqb Z.compare Pos.eqb].
  next_call. next_call. rewrite run_bind_Ret, run_Ret. reflexivity.
Qed.

(** X6. Once [open] has succeeded, [uart2_echo_task] returns for two
    reasons only: the wait returned -1, or the read that followed a wait
    returned a negative value.  The run ends with that call and its
    diagnostic. *)
Theorem uart2_exits_only_on_failure (P : platform) (fuel : nat) (w : world)
        (tr : list event) :
  0 <= w_open w ->
  run fuel w (uart2_echo_task P) = (tr, Exited tt) ->
  exists tr',
    tr = tr' ++ [ Event (uart2_wait (w_open w)) (-1);
                  Event Errno (w_errno w);
                  Event (Printf ("UART2: Select error: %d" ++ LF)
                                [ArgInt (w_errno w)]) tt ]
    \/ exists s r data,
         0 < s /\ r < 0 /\
         tr = tr' ++ [ Event (uart2_wait (w_open w)) s;
                       Event (Read (w_open w) 128) (r, data);
                       Event Errno (w_errno w);
                       Event (Printf ("UART2: fail to read from uart: %d" ++ LF)
                                     [ArgInt (w_errno w)]) tt ].
Proof.
  intros Hfd. apply Z.ltb_ge in Hfd.
  assert (Hloop : forall fd f w0 tr0,
    run f w0 (uart2_loop fd) = (tr0, Exited tt) ->
    exists tr',
      tr0 = tr' ++ [ Event (uart2_wait fd) (-1);
                     Event Errno (w_errno w0);
                     Event (Printf ("UART2: Select error: %d" ++ LF)
                                   [ArgInt (w_errno w0)]) tt ]
      \/ exists s r data,
           0 < s /\ r < 0 /\
           tr0 = tr' ++ [ Event (uart2_wait fd) s;
                          Event (Read fd 128) (r, data);
                          Event Errno (w_errno w0);
                          Event (Printf ("UART2: fail to read from uart: %d" ++ LF)
                                        [ArgInt (w_errno w0)]) tt ]).
  { intros fd f. induction f as [f IH] using lt_wf_ind. intros w0 tr0.
    destruct f as [|f]; [discriminate|].
    unfold uart2_loop. rewrite run_iter. unfold uart2_cycle.
    next_call. destruct (w_select w0) as [|s sels]; [discriminate|].
    intros H. apply prepend_inv in H. destruct H as (tr1 & H & ->).
    destruct f as [|f]; [discriminate|].
    destruct (Z.ltb_spec 0 s) as [Hs|Hs].
    - rewrite run_bind_bind, run_call in H. cbn [answer w_read next_select] in H.
      destruct (w_read w0) as [|[r data] rs]; [discriminate|].
      apply prepend_inv in H. destruct H as (tr2 & H & ->).
      destruct f as [|f]; [discriminate|].
      destruct (Z.ltb_spec r 0) as [Hr|Hr].
      + exists []. right. exists s, r, data. split; [exact Hs|split; [exact Hr|]].
        rewrite run_bind_bind, run_call in H. cbn [answer] in H.
        apply prepend_inv in H. destruct H as (tr3 & H & ->).
        destruct f as [|f]; [discriminate|].
        rewrite run_bind_bind, run_call in H. cbn [answer] in H.
        apply prepend_inv in H. destruct H as (tr4 & H & ->).
        rewrite !run_bind_Ret in H.
        destruct f as [|f]; [discriminate|].
        rewrite run_Ret in H. injection H as <-. reflexivity.
      + rewrite run_bind_bind, run_call in H. cbn [answer] in H.
        apply prepend_inv in H. destruct H as (tr3 & H & ->).
        rewrite run_bind_Ret in H.
        destruct f as [|f]; [discriminate|].
        rewrite run_Tau in H. apply IH in H; [|lia].
        destruct H as (tr' & [->|(s' & r' & data' & Hs' & Hr' & ->)]).
        * eexists (_ :: _ :: _ :: tr'). left. reflexivity.
        * eexists (_ :: _ :: _ :: tr'). right. exists s', r', data'.
          split; [exact Hs'|split; [exact Hr'|reflexivity]].
    - destruct (Z.eqb_spec s (-1)) as [->|Hne].
      + exists []. left.
        rewrite run_bind_bind, run_call in H. cbn [answer] in H.
        apply prepend_inv in H. destruct H as (tr3 & H & ->).
        destruct f as [|f]; [discriminate|].
        rewrite run_bind_bind, run_call in H. cbn [answer] in H.
        apply prepend_inv in H. destruct H as (tr4 & H & ->).
        rewrite !run_bind_Ret in H.
        destruct f as [|f]; [discriminate|].
        rewrite run_Ret in H. injection H as <-. reflexivity.
      + rewrite run_bind_bind, run_call in H. cbn [answer] in H.
        apply prepend_inv in H. destruct H as (tr3 & H & ->).
        destruct f as [|f]; [discriminate|].
        rewrite run_bind_bind, run_call in H. cbn [answer] in H.
        apply prepend_inv in H. destruct H as (tr4 & H & ->).
        rewrite run_bind_Ret in H.
        destruct f as [|f]; [discriminate|].
        rewrite run_Tau in H. apply IH in H; [|lia].
        destruct H as (tr' & [->|(s' & r' & data' & Hs' & Hr' & ->)]).
        * eexists (_ :: _ :: _ :: tr'). left. reflexivity.
        * eexists (_ :: _ :: _ :: tr'). right. exists s', r', data'.
          split; [exact Hs'|split; [exact Hr'|reflexivity]]. }
  destruct fuel as [|f]; [discriminate|].
  unfold uart2_echo_task. rewrite run_call. cbn [answer]. rewrite Hfd.
  intros H. apply prepend_inv in H. destruct H as (tr1 & H & ->).
  destruct f as [|f]; [discriminate|].
  rewrite run_call in H. cbn [answer] in H.
  apply prepend_inv in H. destruct H as (tr2 & H & ->).
  apply Hloop in H.
  destruct H as (tr' & [->|(s' & r' & data' & Hs' & Hr' & ->)]).
  - eexists (_ :: _ :: tr'). left. reflexivity.
  - eexists (_ :: _ :: tr'). right. exists s', r', data'.
    split; [exact Hs'|split; [exact Hr'|reflexivity]].
Qed.

Lemma uart2_exits_only_on_failure_witness :
  0 <= w_open (sample_world [(-1, [])] [0; 1]) /\
  snd (run 12 (sample_world [(-1, [])] [0; 1]) (uart2_echo_task sample_platform)) = Exited tt /\
  exists tr',
    fst (run 12 (sample_world [(-1, [])] [0; 1]) (uart2_echo_task sample_platform))
      = tr' ++ [ Event (uart2_wait 3) (-1); Event Errno 5;
                 Event (Printf ("UART2: Select error: %d" ++ LF) [ArgInt 5]) tt ]
    \/ exists s r data,
         0 < s /\ r < 0 /\
         fst (run 12 (sample_world [(-1, [])] [0; 1]) (uart2_echo_task sample_platform))
           = tr' ++ [ Event (uart2_wait 3) s; Event (Read 3 128) (r, data); Event Errno 5;
                      Event (Printf ("UART2: fail to read from uart: %d" ++ LF)
                                    [ArgInt 5]) tt ].
Proof.
  assert (H1 : 0 <= w_open (sample_world [(-1, [])] [0; 1])) by (vm_compute; discriminate).
  assert (H2 : snd (run 12 (sample_world [(-1, [])] [0; 1]) (uart2_echo_task sample_platform))
                 = Exited tt) by reflexivity.
  split; [exact H1|split; [exact H2|]].
  apply (uart2_exits_only_on_failure sample_platform 12 _ _ H1).
  rewrite <- H2. apply surjective_pairing.
Defined.

Lemma uart2_loop_echoes (fd : Z) (turns : list (Z * list Byte.byte)) (w : world) (n : nat) :
  Forall (fun turn => 0 < fst turn) turns ->
  w_select w = map fst turns ->
  w_read w = map (fun turn => delivers (snd turn)) turns ->
  run (4 * List.length turns + S n) w (uart2_loop fd) =
    (echo2_trace fd (w_write w) (w_written w) turns, Blocked (Call (uart2_wait fd))).
Proof.
  intros Hpos. revert w. induction Hpos as [|[s data] turns Hs _ IH]; intros w Hsel Hread.
  - apply uart2_loop_blocked. exact Hsel.
  - replace (4 * List.length ((s, data) :: turns) + S n)%nat
      with (S (S (S (S (4 * List.length turns + S n))))) by (cbn [List.length]; lia).
    rewrite (uart2_turn_ready fd w s (Z.of_nat (List.length data)) data);
      [|rewrite Hsel; reflexivity|exact Hs|rewrite Hread; reflexivity|lia].
    rewrite IH; [|cbn; rewrite Hsel; reflexivity|cbn; rewrite Hread; reflexivity].
    rewrite (take_store data _ _ eq_refl). reflexivity.
Qed.

Lemma written_echo2_trace (fd : Z) (answers : nat -> Z) (k : nat)
      (turns : list (Z * list Byte.byte)) :
  written (echo2_trace fd answers k turns) = map Some (List.concat (map snd turns)).
Proof.
  revert k. induction turns as [|[s data] turns IH]; intros k; [reflexivity|].
  cbn. unfold written in IH. rewrite IH, map_app. reflexivity.
Qed.

(** X7. Chunk after chunk: with the endpoint open, every wait reporting it
    readable and every read delivering a chunk of bytes (of any length,
    none included), [uart2_echo_task] answers each chunk with one write of
    that chunk before it waits again; what it has sent is the chunks joined
    in order, and it is then suspended in the next wait. *)
Theorem uart2_echoes_chunks_in_order (P : platform) (w : world)
        (turns : list (Z * list Byte.byte)) (fuel : nat) :
  0 <= w_open w ->
  Forall (fun turn => 0 < fst turn) turns ->
  w_select w = map fst turns ->
  w_read w = map (fun turn => delivers (snd turn)) turns ->
  (4 * List.length turns + 3 <= fuel)%nat ->
  run fuel w (uart2_echo_task P) =
    (Event (Open (PORT2 P) (O_RDWR P)) (w_open w)
       :: Event (Printf ("UART2: %s open @ 115200" ++ LF) [ArgStr (PORT2 P)]) tt
       :: echo2_trace (w_open w) (w_write w) (w_written w) turns,
     Blocked (Call (uart2_wait (w_open w))))
  /\ written (fst (run fuel w (uart2_echo_task P))) = map Some (List.concat (map snd turns)).
Proof.
  intros Hfd Hpos Hsel Hread Hfuel.
  assert (Hrun : run fuel w (uart2_echo_task P) =
    (Event (Open (PORT2 P) (O_RDWR P)) (w_open w)
       :: Event (Printf ("UART2: %s open @ 115200" ++ LF) [ArgStr (PORT2 P)]) tt
       :: echo2_trace (w_open w) (w_write w) (w_written w) turns,
     Blocked (Call (uart2_wait (w_open w))))).
  { apply run_enough with (n := (4 * List.length turns + 3)%nat);
      [|discriminate|exact Hfuel].
    replace (4 * List.length turns + 3)%nat
      with (S (S (4 * List.length turns + 1))) by lia.
    unfold uart2_echo_task. next_call.
    assert (Hneg : (w_open w <? 0) = false) by (apply Z.ltb_ge; exact Hfd).
    rewrite Hneg. next_call.
    rewrite (uart2_loop_echoes (w_open w) turns w 0 Hpos Hsel Hread). reflexivity. }
  split; [exact Hrun|]. rewrite Hrun. cbn [fst].
  change (written (echo2_trace (w_open w) (w_write w) (w_written w) turns)
          = map Some (List.concat (map snd turns))).
  apply written_echo2_trace.
Qed.

Lemma uart2_echoes_chunks_in_order_witness :
  0 <= w_open (sample_world [delivers [Byte.x68; Byte.x69]; delivers []; delivers [Byte.x21]]
                            [1; 1; 1]) /\
  Forall (fun turn => 0 < fst turn)
         [(1, [Byte.x68; Byte.x69]); (1, []); (1, [Byte.x21])] /\
  (4 * List.length [(1, [Byte.x68; Byte.x69]); (1, []); (1, [Byte.x21])] + 3 <= 15)%nat /\
  written (fst (run 15 (sample_world
                          [delivers [Byte.x68; Byte.x69]; delivers []; delivers [Byte.x21]]
                          [1; 1; 1])
                    (uart2_echo_task sample_platform)))
    = [Some Byte.x68; Some Byte.x69; Some Byte.x21].
Proof.
  assert (H1 : 0 <= w_open (sample_world
                              [delivers [Byte.x68; Byte.x69]; delivers []; delivers [Byte.x21]]
                              [1; 1; 1])) by (vm_compute; discriminate).
  assert (H2 : Forall (fun turn : Z * list Byte.byte => 0 < fst turn)
                      [(1, [Byte.x68; Byte.x69]); (1, []); (1, [Byte.x21])])
    by (repeat constructor).
  assert (H3 : (4 * List.length [(1, [Byte.x68; Byte.x69]); (1, []); (1, [Byte.x21])] + 3
                <= 15)%nat) by (simpl; lia).
  split; [exact H1|split; [exact H2|split; [exact H3|]]].
  exact (proj2 (uart2_echoes_chunks_in_order sample_platform _ _ 15 H1 H2
                  eq_refl eq_refl H3)).
Defined.

Lemma uart2_calls_ok_prepend {R : Type} (fd : Z) (ready : bool) (ev : event)
      (res : list event * outcome R) :
  uart2_calls_ok fd ready [ev] = true ->
  uart2_calls_ok fd ready (fst (let (tr, o) := res in (ev :: tr, o)))
    = uart2_calls_ok fd (is_ready ev) (fst res).
Proof.
  intros H. rewrite fst_prepend. cbn [uart2_calls_ok] in *.
  rewrite andb_true_r in H. rewrite H. reflexivity.
Qed.

(** X8. Every call of the loop of [uart2_echo_task] is a wait of five
    seconds on its descriptor alone, a read of at most 128 bytes from it, a
    write to it, or a diagnostic; and it never reads unless the wait just
    before reported the descriptor readable.  This holds of every run,
    whatever the environment answers. *)
Theorem uart2_reads_only_when_ready (P : platform) (fuel : nat) (w : world) :
  uart2_calls_ok (w_open w) false (tl (fst (run fuel w (uart2_echo_task P)))) = true.
Proof.
  assert (Hloop : forall fd f w0,
    uart2_calls_ok fd false (fst (run f w0 (uart2_loop fd))) = true).
  { intros fd f. induction f as [f IH] using lt_wf_ind. intros w0.
    destruct f as [|f]; [reflexivity|].
    unfold uart2_loop. rewrite run_iter. unfold uart2_cycle.
    next_call. destruct (w_select w0) as [|s sels]; [reflexivity|].
    rewrite uart2_calls_ok_prepend
      by (cbn; rewrite !Z.eqb_refl; reflexivity).
    cbn [is_ready].
    destruct f as [|f]; [destruct (0 <? s), (s =? -1); reflexivity|].
    destruct (0 <? s).
    - next_call. cbn [w_read next_select].
      destruct (w_read w0) as [|[r data] rs]; [reflexivity|].
      rewrite uart2_calls_ok_prepend by (cbn; rewrite !Z.eqb_refl; reflexivity).
      cbn [is_ready].
      destruct f as [|f]; [destruct (r <? 0); reflexivity|].
      destruct (r <? 0).
      + next_call. rewrite uart2_calls_ok_prepend by reflexivity. cbn [is_ready].
        destruct f as [|f]; [reflexivity|].
        next_call. rewrite uart2_calls_ok_prepend by reflexivity. cbn [is_ready].
        rewrite run_bind_Ret. destruct f; reflexivity.
      + next_call.
        rewrite uart2_calls_ok_prepend by (cbn; rewrite !Z.eqb_refl; reflexivity).
        cbn [is_ready]. rewrite run_bind_Ret.
        destruct f as [|f]; [reflexivity|].
        rewrite run_Tau. apply IH. lia.
    - destruct (s =? -1).
      + next_call. rewrite uart2_calls_ok_prepend by reflexivity. cbn [is_ready].
        destruct f as [|f]; [reflexivity|].
        next_call. rewrite uart2_calls_ok_prepend by reflexivity. cbn [is_ready].
        rewrite run_bind_Ret. destruct f; reflexivity.
      + next_call.
        rewrite uart2_calls_ok_prepend by (cbn; rewrite !Z.eqb_refl; reflexivity).
        cbn [is_ready].
        destruct f as [|f]; [reflexivity|].
        next_call. rewrite uart2_calls_ok_prepend by reflexivity. cbn [is_ready].
        rewrite run_bind_Ret. destruct f as [|f]; [reflexivity|].
        rewrite run_Tau. apply IH. lia. }
  destruct fuel as [|f]; [reflexivity|].
  unfold uart2_echo_task. next_call. rewrite fst_prepend. cbn [tl].
  destruct f as [|f]; [destruct (w_open w <? 0); reflexivity|].
  destruct (w_open w <? 0).
  - next_call. rewrite uart2_calls_ok_prepend by reflexivity. cbn [is_ready].
    destruct f as [|[|f]]; [reflexivity|reflexivity|].
    rewrite run_last_call. reflexivity.
  - next_call. rewrite uart2_calls_ok_prepend by reflexivity. cbn [is_ready].
    apply Hloop.
Qed.

Lemma after_idle_waits (n : nat) (rest : list Z) (w : world) :
  w_select w = repeat 0 n ++ rest ->
  w_select (after_idle n w) = rest /\ w_errno (after_idle n w) = w_errno w.
Proof.
  revert w. induction n as [|n IH]; intros w Hsel.
  - split; [exact Hsel|reflexivity].
  - cbn [after_idle]. destruct (IH (next_write (next_select w))) as [H1 H2].
    + cbn. rewrite Hsel. reflexivity.
    + split; assumption.
Qed.

(** X9. The whole life of the task on a silent line: with the endpoint
    open, [n] waits that expire and then a wait that fails, the task sends
    and logs the idle notice [n] times, prints the select diagnostic with
    [errno] and returns.  All it has sent is [n] times the 28 bytes of
    [idle_notice_bytes]. *)
Theorem uart2_idles_until_wait_fails (P : platform) (w : world) (n : nat)
        (rest : list Z) (fuel : nat) :
  0 <= w_open w ->
  w_select w = repeat 0 n ++ -1 :: rest ->
  (4 * n + 6 <= fuel)%nat ->
  run fuel w (uart2_echo_task P) =
    (Event (Open (PORT2 P) (O_RDWR P)) (w_open w)
       :: Event (Printf ("UART2: %s open @ 115200" ++ LF) [ArgStr (PORT2 P)]) tt
       :: idle_trace (w_open w) (w_write w) (w_written w) n
       ++ [ Event (uart2_wait (w_open w)) (-1);
            Event Errno (w_errno w);
            Event (Printf ("UART2: Select error: %d" ++ LF) [ArgInt (w_errno w)]) tt ],
     Exited tt)
  /\ written (fst (run fuel w (uart2_echo_task P)))
     = List.concat (repeat (map Some idle_notice_bytes) n).
Proof.
  intros Hfd Hsel Hfuel.
  assert (Hrun : run fuel w (uart2_echo_task P) =
    (Event (Open (PORT2 P) (O_RDWR P)) (w_open w)
       :: Event (Printf ("UART2: %s open @ 115200" ++ LF) [ArgStr (PORT2 P)]) tt
       :: idle_trace (w_open w) (w_write w) (w_written w) n
       ++ [ Event (uart2_wait (w_open w)) (-1);
            Event Errno (w_errno w);
            Event (Printf ("UART2: Select error: %d" ++ LF) [ArgInt (w_errno w)]) tt ],
     Exited tt)).
  { apply run_enough with (n := (4 * n + 6)%nat); [|discriminate|exact Hfuel].
    replace (4 * n + 6)%nat with (S (S (4 * n + 4))) by lia.
    unfold uart2_echo_task. next_call.
    assert (Hneg : (w_open w <? 0) = false) by (apply Z.ltb_ge; exact Hfd).
    rewrite Hneg. next_call.
    rewrite (uart2_loop_idles (w_open w) n 4 _ w Hsel).
    destruct (after_idle_waits n _ w Hsel) as [Hrest Herrno].
    rewrite (uart2_turn_select_error (w_open w) _ 0) by (rewrite Hrest; reflexivity).
    rewrite Herrno. reflexivity. }
  split; [exact Hrun|]. rewrite Hrun. cbn [fst].
  unfold written. cbn [flat_map sent app]. rewrite flat_map_app.
  cbn [flat_map sent app]. rewrite app_nil_r.
  apply written_idle_trace.
Qed.

Lemma uart2_idles_until_wait_fails_witness :
  0 <= w_open (sample_world [] [0; 0; -1; 1]) /\
  w_select (sample_world [] [0; 0; -1; 1]) = repeat 0 2 ++ -1 :: [1] /\
  (4 * 2 + 6 <= 14)%nat /\
  snd (run 14 (sample_world [] [0; 0; -1; 1]) (uart2_echo_task sample_platform)) = Exited tt /\
  written (fst (run 14 (sample_world [] [0; 0; -1; 1]) (uart2_echo_task sample_platform)))
    = map Some (idle_notice_bytes ++ idle_notice_bytes).
Proof.
  assert (H1 : 0 <= w_open (sample_world [] [0; 0; -1; 1])) by (vm_compute; discriminate).
  assert (H2 : w_select (sample_world [] [0; 0; -1; 1]) = repeat 0 2 ++ -1 :: [1])
    by reflexivity.
  assert (H3 : (4 * 2 + 6 <= 14)%nat) by lia.
  split; [exact H1|split; [exact H2|split; [exact H3|]]].
  destruct (uart2_idles_until_wait_fails sample_platform _ 2 [1] 14 H1 H2 H3) as [Hrun Hsent].
  split; [rewrite Hrun; reflexivity|].
  rewrite Hsent. reflexivity.
Defined.

(** ** Nothing is sent but the echo and the notice *)

Lemma uart1_writes_echo_prepend {R : Type} (prev : option event) (ev : event)
      (res : list event * outcome R) :
  uart1_writes_echo prev [ev] ->
  uart1_writes_echo (Some ev) (fst res) ->
  uart1_writes_echo prev (fst (let (tr, o) := res in (ev :: tr, o))).
Proof.
  intros [H _] H'. rewrite fst_prepend. split; assumption.
Qed.

(** X14. [uart1_echo_task] sends nothing of its own: in every run, each of
    its writes comes right after a read that did not fail and sends the one
    cell that read left in [ch]. *)
Theorem uart1_sends_only_echoes (P : platform) (fuel : nat) (w : world) :
  uart1_writes_echo None (fst (run fuel w (uart1_echo_task P))).
Proof.
  assert (Hloop : forall fd f w0 prev,
    uart1_writes_echo prev
      (fst (run f w0 (uart1_loop fd;; ITree.trigger (Close fd);; Ret tt)))).
  { intros fd f. induction f as [f IH] using lt_wf_ind. intros w0 prev.
    destruct f as [|f]; [exact I|].
    unfold uart1_loop. rewrite run_bind_iter. unfold uart1_cycle.
    next_call. destruct (w_read w0) as [|[r data] rs]; [exact I|].
    apply uart1_writes_echo_prepend; [repeat split|].
    destruct f as [|f]; [destruct (r <? 0); exact I|].
    destruct (Z.ltb_spec r 0) as [Hr|Hr].
    - next_call. apply uart1_writes_echo_prepend; [repeat split|].
      destruct f as [|f]; [exact I|].
      next_call. apply uart1_writes_echo_prepend; [repeat split|].
      rewrite !run_bind_Ret. destruct f as [|f]; [exact I|].
      next_call. apply uart1_writes_echo_prepend; [repeat split|].
      destruct f; exact I.
    - next_call. rewrite take_store_ch.
      apply uart1_writes_echo_prepend; [repeat split; assumption|].
      rewrite run_bind_Ret. destruct f as [|f]; [exact I|].
      rewrite run_bind_Tau. apply IH. lia. }
  destruct fuel as [|f]; [exact I|].
  unfold uart1_echo_task. next_call.
  apply uart1_writes_echo_prepend; [repeat split|].
  destruct f as [|f]; [destruct (w_open w <? 0); exact I|].
  destruct (w_open w <? 0).
  - next_call. apply uart1_writes_echo_prepend; [repeat split|].
    destruct f as [|[|f]]; [exact I|cbn; repeat split|].
    rewrite run_last_call. repeat split.
  - next_call. destruct (w_tcgetattr w) as [r t].
    apply uart1_writes_echo_prepend; [repeat split|].
    destruct f as [|f]; [exact I|].
    next_call. apply uart1_writes_echo_prepend; [repeat split|].
    destruct f as [|f]; [exact I|].
    next_call. apply uart1_writes_echo_prepend; [repeat split|].
    apply Hloop.
Qed.

Lemma uart2_writes_echo_prepend {R : Type} (prev : option event) (ev : event)
      (res : list event * outcome R) :
  uart2_writes_echo prev [ev] ->
  uart2_writes_echo (Some ev) (fst res) ->
  uart2_writes_echo prev (fst (let (tr, o) := res in (ev :: tr, o))).
Proof.
  intros [H _] H'. rewrite fst_prepend. split; assumption.
Qed.

(** X15. [uart2_echo_task] sends nothing but echoes and idle notices: in
    every run, each of its writes either comes right after a read that did
    not fail and sends the cells of [rdbuf] that read filled, or comes right
    after a wait that returned neither a positive value nor -1 and sends the
    idle notice. *)
Theorem uart2_sends_only_echoes_and_notices (P : platform) (fuel : nat) (w : world) :
  uart2_writes_echo None (fst (run fuel w (uart2_echo_task P))).
Proof.
  assert (Hloop : forall fd f w0 prev,
    uart2_writes_echo prev (fst (run f w0 (uart2_loop fd)))).
  { intros fd f. induction f as [f IH] using lt_wf_ind. intros w0 prev.
    destruct f as [|f]; [exact I|].
    unfold uart2_loop. rewrite run_iter. unfold uart2_cycle.
    next_call. destruct (w_select w0) as [|s sels]; [exact I|].
    apply uart2_writes_echo_prepend; [repeat split|].
    destruct f as [|f]; [destruct (0 <? s), (s =? -1); exact I|].
    destruct (Z.ltb_spec 0 s) as [Hs|Hs].
    - next_call. cbn [w_read next_select].
      destruct (w_read w0) as [|[r data] rs]; [exact I|].
      apply uart2_writes_echo_prepend; [repeat split|].
      destruct f as [|f]; [destruct (r <? 0); exact I|].
      destruct (Z.ltb_spec r 0) as [Hr|Hr].
      + next_call. apply uart2_writes_echo_prepend; [repeat split|].
        destruct f as [|f]; [exact I|].
        next_call. apply uart2_writes_echo_prepend; [repeat split|].
        rewrite run_bind_Ret. destruct f; exact I.
      + next_call. apply uart2_writes_echo_prepend; [repeat split; assumption|].
        rewrite run_bind_Ret. destruct f as [|f]; [exact I|].
        rewrite run_Tau. apply IH. lia.
    - destruct (Z.eqb_spec s (-1)) as [->|Hne].
      + next_call. apply uart2_writes_echo_prepend; [repeat split|].
        destruct f as [|f]; [exact I|].
        next_call. apply uart2_writes_echo_prepend; [repeat split|].
        rewrite run_bind_Ret. destruct f; exact I.
      + next_call. rewrite chars_idle_notice.
        apply uart2_writes_echo_prepend; [repeat split; assumption|].
        destruct f as [|f]; [exact I|].
        next_call. apply uart2_writes_echo_prepend; [repeat split|].
        rewrite run_bind_Ret. destruct f as [|f]; [exact I|].
        rewrite run_Tau. apply IH. lia. }
  destruct fuel as [|f]; [exact I|].
  unfold uart2_echo_task. next_call.
  apply uart2_writes_echo_prepend; [repeat split|].
  destruct f as [|f]; [destruct (w_open w <? 0); exact I|].
  destruct (w_open w <? 0).
  - next_call. apply uart2_writes_echo_prepend; [repeat split|].
    destruct f as [|[|f]]; [exact I|cbn; repeat split|].
    rewrite run_last_call. repeat split.
  - next_call. apply uart2_writes_echo_prepend; [repeat split|].
    apply Hloop.
Qed.

(** ** More on the URC handler *)

Lemma fst_determines_snd {A B : Type} (l : list (A * B)) (a : A) (b b' : B) :
  NoDup (map fst l) -> In (a, b) l -> In (a, b') l -> b = b'.
Proof.
  induction l as [|[x y] l IH]; intros Hnd Hb Hb'; [contradiction|].
  cbn [map fst] in Hnd. inversion Hnd as [|? ? Hx Hnd']; subst.
  destruct Hb as [Hb|Hb], Hb' as [Hb'|Hb'].
  - congruence.
  - injection Hb as -> ->. exfalso. apply Hx. apply (in_map fst) in Hb'. exact Hb'.
  - injection Hb' as -> ->. exfalso. apply Hx. apply (in_map fst) in Hb. exact Hb.
  - apply IH; assumption.
Qed.

Lemma log_source_formats (K : ril) : NoDup (map fst (log_source K)).
Proof.
  unfold log_source. cbn [map fst].
  repeat constructor; cbn [In]; intuition discriminate.
Qed.

(** X10. Whatever the event code, the parameter and the memory, the handler
    calls [debug] at most once. *)
Theorem urc_logs_at_most_once (K : ril) (mem : memory) (param1 param2 : Z)
        (logs : list log) :
  urc_callback K mem param1 param2 = Some logs -> (List.length logs <= 1)%nat.
Proof.
  revert logs. unfold urc_callback.
  apply (switch_all (fun r => forall logs, r = Some logs -> (List.length logs <= 1)%nat)).
  - repeat (apply Forall_cons; cbn [snd]);
      try apply Forall_nil;
      try (intros logs [= <-]; cbn; lia).
    + destruct (param2 =? SYS_STATE_SMSOK K); intros logs [= <-]; cbn; lia.
    + apply (switch_all (fun r => forall logs, r = Some logs -> (List.length logs <= 1)%nat)).
      * repeat (apply Forall_cons; cbn [snd]); try apply Forall_nil;
          intros logs [= <-]; cbn; lia.
      * intros logs [= <-]; cbn; lia.
    + destruct (mem param2); [intros logs [= <-]; cbn; lia|discriminate].
    + apply (switch_all (fun r => forall logs, r = Some logs -> (List.length logs <= 1)%nat)).
      * repeat (apply Forall_cons; cbn [snd]); try apply Forall_nil;
          intros logs [= <-]; cbn; lia.
      * intros logs [= <-]; cbn; lia.
  - intros logs [= <-]; cbn; lia.
Qed.

Lemma urc_logs_at_most_once_witness :
  urc_callback sample_ril sample_memory 5 4096
    = Some [Debug 0 ("Incoming voice call from: %s" ++ LF) [ArgStr "5550100"]] /\
  (List.length [Debug 0 ("Incoming voice call from: %s" ++ LF) [ArgStr "5550100"]] <= 1)%nat.
Proof.
  assert (H : urc_callback sample_ril sample_memory 5 4096
                = Some [Debug 0 ("Incoming voice call from: %s" ++ LF) [ArgStr "5550100"]])
    by reflexivity.
  split; [exact H|].
  exact (urc_logs_at_most_once sample_ril sample_memory 5 4096 _ H).
Defined.

Section HandlerMore.

Variable K : ril.
Hypothesis urc_codes_distinct : distinct (urc_codes K) = true.

(** The body of the case of one code. *)
Ltac urc_body :=
  unfold urc_callback;
  erewrite switch_hit;
    [
    |exact urc_codes_distinct
    |solve [cbn [In]; repeat (try (left; reflexivity); right)]];
  reflexivity.

Lemma urc_gsm_nw (mem : memory) (param2 : Z) :
  urc_callback K mem (URC_GSM_NW_STATE_IND K) param2 =
  Some [Debug (DBG_OFF K) ("SYSTEM: GSM NW State: %d" ++ LF) [ArgInt param2]].
Proof. urc_body. Qed.

Lemma urc_new_sms (mem : memory) (param2 : Z) :
  urc_callback K mem (URC_NEW_SMS_IND K) param2 =
  Some [Debug (DBG_OFF K) ("SMS: New SMS (%d)" ++ LF) [ArgInt param2]].
Proof. urc_body. Qed.

Lemma urc_module_voltage (mem : memory) (param2 : Z) :
  urc_callback K mem (URC_MODULE_VOLTAGE_IND K) param2 =
  Some [Debug (DBG_INFO K) ("VBatt Voltage: %d" ++ LF) [ArgInt param2]].
Proof. urc_body. Qed.

(** Every line the handler logs for a code is listed with that code in
    [log_source]. *)
Lemma urc_line_source (mem : memory) (param1 param2 : Z) (logs : list log) (line : log) :
  urc_callback K mem param1 param2 = Some logs -> In line logs ->
  In (format_of line, param1) (log_source K).
Proof.
  destruct (in_dec Z.eq_dec param1 (urc_codes K)) as [Hin|Hin].
  - cbn [urc_codes In] in Hin.
    repeat (destruct Hin as [<-|Hin];
            [first
               [ rewrite urc_sys_init by exact urc_codes_distinct;
                 intros [= <-] []
               | rewrite urc_reserved
                   by (try exact urc_codes_distinct; cbn [reserved_codes In]; auto 10);
                 intros [= <-] []
               | rewrite urc_gsm_nw; intros [= <-] [<-|[]]; cbn; auto 20
               | rewrite urc_new_sms; intros [= <-] [<-|[]]; cbn; auto 20
               | rewrite urc_module_voltage; intros [= <-] [<-|[]]; cbn; auto 20
               | rewrite urc_coming_call by exact urc_codes_distinct;
                 destruct (mem param2); [|discriminate];
                 intros [= <-] [<-|[]]; cbn; auto 20
               | idtac ]
            |]); [| |contradiction].
    + rewrite urc_sim_card by exact urc_codes_distinct. revert logs.
      apply (switch_all (fun r => forall logs, r = Some logs -> In line logs ->
               In (format_of line, URC_SIM_CARD_STATE_IND K) (log_source K))).
      * cbn [combine map sim_states sim_lines].
        repeat (apply Forall_cons; cbn [snd]); try apply Forall_nil;
          intros logs [= <-] [<-|[]]; cbn; auto 20.
      * intros logs [= <-] [<-|[]]; cbn; auto 20.
    + rewrite urc_call_state by exact urc_codes_distinct. revert logs.
      apply (switch_all (fun r => forall logs, r = Some logs -> In line logs ->
               In (format_of line, URC_CALL_STATE_IND K) (log_source K))).
      * repeat (apply Forall_cons; cbn [snd]); try apply Forall_nil;
          intros logs [= <-] [<-|[]]; cbn; auto 20.
      * intros logs [= <-] [].
  - rewrite urc_unknown by assumption. intros [= <-] [].
Qed.

(** X11. A line of the log tells which event code the handler was called
    with: two calls that give [debug] the same format were made with the
    same event code, whatever their parameters and the memory. *)
Theorem urc_log_line_identifies_code (mem mem' : memory) (param1 param2 param1' param2' : Z)
        (logs logs' : list log) (line line' : log) :
  urc_callback K mem param1 param2 = Some logs -> In line logs ->
  urc_callback K mem' param1' param2' = Some logs' -> In line' logs' ->
  format_of line = format_of line' ->
  param1 = param1'.
Proof.
  intros H Hin H' Hin' Hfmt.
  apply (urc_line_source mem param1 param2 logs line H) in Hin.
  apply (urc_line_source mem' param1' param2' logs' line' H') in Hin'.
  rewrite <- Hfmt in Hin'.
  exact (fst_determines_snd (log_source K) _ _ _ (log_source_formats K) Hin Hin').
Qed.

(** X12. For the call-state event the four states give, in order, the four
    lines of [call_lines], which are pairwise different and all at level
    [DBG_OFF]. *)
Theorem call_state_lines (mem : memory) :
  distinct (call_states K) = true ->
  map (urc_callback K mem (URC_CALL_STATE_IND K)) (call_states K)
    = map (fun line => Some [line]) (call_lines K)
  /\ NoDup (call_lines K)
  /\ Forall (fun line => match line with Debug level _ _ => level = DBG_OFF K end)
            (call_lines K).
Proof.
  intros Hcall. split; [|split].
  - cbn [map call_states call_lines].
    rewrite !urc_call_state by exact urc_codes_distinct.
    repeat (apply (f_equal2 cons);
            [apply switch_hit; [exact Hcall|cbn [In]; auto 10]|]).
    reflexivity.
  - unfold call_lines. repeat constructor; cbn [In]; intuition discriminate.
  - repeat constructor.
Qed.

End HandlerMore.

Lemma urc_log_line_identifies_code_witness :
  distinct (urc_codes sample_ril) = true /\
  urc_callback sample_ril sample_memory 1 7
    = Some [Debug 0 ("SYSTEM: SIM ERROR: %d" ++ LF) [ArgInt 7]] /\
  urc_callback sample_ril (fun _ => None) (URC_SIM_CARD_STATE_IND sample_ril) 9
    = Some [Debug 0 ("SYSTEM: SIM ERROR: %d" ++ LF) [ArgInt 9]] /\
  1 = URC_SIM_CARD_STATE_IND sample_ril.
Proof.
  assert (H1 : distinct (urc_codes sample_ril) = true) by reflexivity.
  assert (H2 : urc_callback sample_ril sample_memory 1 7
                 = Some [Debug 0 ("SYSTEM: SIM ERROR: %d" ++ LF) [ArgInt 7]])
    by reflexivity.
  assert (H3 : urc_callback sample_ril (fun _ => None) (URC_SIM_CARD_STATE_IND sample_ril) 9
                 = Some [Debug 0 ("SYSTEM: SIM ERROR: %d" ++ LF) [ArgInt 9]])
    by reflexivity.
  split; [exact H1|split; [exact H2|split; [exact H3|]]].
  apply (urc_log_line_identifies_code sample_ril H1 _ _ _ _ _ _ _ _ _ _ H2
           (or_introl eq_refl) H3 (or_introl eq_refl)).
  reflexivity.
Defined.

Lemma call_state_lines_witness :
  distinct (urc_codes sample_ril) = true /\
  distinct (call_states sample_ril) = true /\
  map (urc_callback sample_ril sample_memory (URC_CALL_STATE_IND sample_ril))
      (call_states sample_ril)
    = map (fun line => Some [line]) (call_lines sample_ril).
Proof.
  assert (H1 : distinct (urc_codes sample_ril) = true) by reflexivity.
  assert (H2 : distinct (call_states sample_ril) = true) by reflexivity.
  split; [exact H1|split; [exact H2|]].
  exact (proj1 (call_state_lines sample_ril H1 sample_memory H2)).
Defined.

(** ** The entry point *)

Lemma run_main_observe {R : Type} (n : nat) (env : oracle) (past : list main_event)
      (t t' : itree mainE R) :
  observe t = observe t' -> run_main n env past t = run_main n env past t'.
Proof.
  intros H. destruct n; simpl; [reflexivity|]. rewrite H. reflexivity.
Qed.

(** A call of [main] followed by the rest of it. *)
Lemma run_main_call {R T : Type} (n : nat) (env : oracle) (past : list main_event)
      (e : mainE T) (k : T -> itree mainE R) :
  run_main (S n) env past (ITree.bind (ITree.trigger e) k) =
  let (tr, o) := run_main n env (past ++ [MainEvent e (env T past e)]) (k (env T past e)) in
  (MainEvent e (env T past e) :: tr, o).
Proof.
  simpl.
  rewrite (run_main_observe n env _ (ITree.bind (Ret (env T past e)) k) (k (env T past e)))
    by reflexivity.
  reflexivity.
Qed.

Lemma observe_bind_main {R S : Type} (t : itree mainE S) (k : S -> itree mainE R) :
  observe (ITree.bind t k) =
  match observe t with
  | RetF r => observe (k r)
  | TauF t' => TauF (ITree.bind t' k)
  | VisF e h => VisF e (fun x => ITree.bind (h x) k)
  end.
Proof.
  change (observe (ITree.bind t k))
    with (observe (match observe t with
                   | RetF r => k r
                   | TauF t' => Tau (ITree.bind t' k)
                   | VisF e h => Vis e (fun x => ITree.bind (h x) k)
                   end)).
  destruct (observe t); reflexivity.
Qed.

Lemma run_main_bind_bind {R S T : Type} (n : nat) (env : oracle) (past : list main_event)
      (t : itree mainE T) (k : T -> itree mainE S) (k' : S -> itree mainE R) :
  run_main n env past (ITree.bind (ITree.bind t k) k') =
  run_main n env past (ITree.bind t (fun x => ITree.bind (k x) k')).
Proof.
  revert past t. induction n as [|n IH]; intros past t; [reflexivity|].
  cbn [run_main]. rewrite !observe_bind_main.
  destruct (observe t) as [r|t'|X e h].
  - rewrite observe_bind_main. reflexivity.
  - apply IH.
  - rewrite (IH _ (h (env X past e))). reflexivity.
Qed.

(** A turn of the loop of [main]: the sleep, and the loop again. *)
Lemma main_loop_turn (n : nat) (env : oracle) (past : list main_event) :
  run_main (S (S n)) env past main_loop =
  let (tr, o) :=
    run_main n env (past ++ [MainEvent (inr1 (Sleep 1)) (env Z past (inr1 (Sleep 1)))])
             main_loop in
  (MainEvent (inr1 (Sleep 1)) (env Z past (inr1 (Sleep 1))) :: tr, o).
Proof.
  unfold main_loop at 1.
  rewrite (run_main_observe _ env past _
             (ITree.bind main_cycle
                (fun lr : unit + Z =>
                   match lr with
                   | inl l => Tau (ITree.iter (fun _ : unit => main_cycle) l)
                   | inr r => Ret r
                   end))) by reflexivity.
  unfold main_cycle. rewrite run_main_bind_bind, run_main_call.
  rewrite (run_main_observe _ env _ _ (Tau main_loop)) by reflexivity.
  reflexivity.
Qed.

Lemma main_loop_never_returns (env : oracle) (fuel : nat) (past : list main_event) :
  snd (run_main fuel env past main_loop) = None.
Proof.
  revert past. induction fuel as [fuel IH] using lt_wf_ind. intros past.
  destruct fuel as [|[|f]]; [reflexivity|reflexivity|].
  rewrite main_loop_turn.
  specialize (IH f ltac:(lia)
                (past ++ [MainEvent (inr1 (Sleep 1)) (env Z past (inr1 (Sleep 1)))])).
  destruct (run_main f env _ main_loop) as [tr o]. exact IH.
Qed.

Lemma main_loop_sleeps (env : oracle) (n : nat) (past : list main_event) :
  map call_of (fst (run_main (2 * n) env past main_loop))
    = repeat (MainCall (inr1 (Sleep 1))) n.
Proof.
  revert past. induction n as [|n IH]; intros past; [reflexivity|].
  replace (2 * S n)%nat with (S (S (2 * n))) by lia.
  rewrite main_loop_turn.
  specialize (IH (past ++ [MainEvent (inr1 (Sleep 1)) (env Z past (inr1 (Sleep 1)))])).
  destruct (run_main (2 * n) env _ main_loop) as [tr o].
  cbn [fst map call_of repeat] in *. rewrite IH. reflexivity.
Qed.

Lemma main_prepend {R : Type} (ev : main_event) (res : list main_event * option R) :
  fst (let (tr, o) := res in (ev :: tr, o)) = ev :: fst res
  /\ snd (let (tr, o) := res in (ev :: tr, o)) = snd res.
Proof. destruct res; split; reflexivity. Qed.

(** X13. [main] never returns, whatever the library and the scheduler
    answer.  It initialises the library with the console port and
    [urc_callback], creates the task of [uart1_echo_task] and then that of
    [uart2_echo_task], once each and only after the initialisation, and from
    then on does nothing but sleep one second at a time. *)
Theorem main_boots_then_sleeps_forever (P : platform) (K : ril) (env : oracle)
        (fuel n : nat) :
  snd (run_main fuel env [] (main P K)) = None
  /\ map call_of (fst (run_main (5 + 2 * n) env [] (main P K)))
     = boot_calls P K ++ repeat (MainCall (inr1 (Sleep 1))) n.
Proof.
  split.
  - unfold main.
    do 5 (destruct fuel as [|fuel]; [reflexivity|];
          rewrite run_main_call; rewrite (proj2 (main_prepend _ _))).
    apply main_loop_never_returns.
  - unfold main. cbn [Nat.add].
    do 5 (rewrite run_main_call; rewrite (proj1 (main_prepend _ _));
          cbn [map call_of]).
    rewrite main_loop_sleeps. reflexivity.
Qed.
